(** * DDO wiki monster scraper: the pure core of [main.py]

    A shallow embedding of [DDOWikiScraper] (src/main.py) and of the
    parts of the Python standard library it calls ([str] methods,
    [difflib.SequenceMatcher], [sorted]), followed by the properties of
    the fuzzy matcher, the record extractor, the alignment decomposers,
    the table assembly and the console loop.

    Conventions.
    - A Python [str] is a [string]; a character is its code point, here
      in the range 0..255 (Latin-1), on which [str.lower], [str.isspace]
      and the ordering of [str] are given below.
    - A Python exception is a value of [exn]; a call that may raise
      returns [result A].
    - A [dict] with [str] keys is an association list in insertion order
      with unique keys (the order Python keeps). *)

From Stdlib Require Import Bool Arith ZArith Lia List String Ascii QArith Sorted.
From Stdlib Require OrderedTypeEx.
Import ListNotations.
Local Close Scope Q_scope.
Local Open Scope string_scope.
Local Open Scope list_scope.
Local Open Scope nat_scope.

(* ===================================================================== *)
(** * Python strings *)
(* ===================================================================== *)

Module Py.

(** [str.isspace] on one code point below 256: TAB..CR, FS..US, SPACE,
    NEL (0x85) and NBSP (0xA0). *)
Definition isspace (c : ascii) : bool :=
  let n := nat_of_ascii c in
  ((9 <=? n) && (n <=? 13)) || ((28 <=? n) && (n <=? 32))
  || (n =? 133) || (n =? 160).

(** [str.lower] on one code point below 256: A..Z and the Latin-1
    capitals 0xC0..0xDE (except the multiplication sign 0xD7) move up by
    32; nothing else changes. *)
Definition lower_char (c : ascii) : ascii :=
  let n := nat_of_ascii c in
  if ((65 <=? n) && (n <=? 90))
     || ((192 <=? n) && (n <=? 222) && negb (n =? 215))
  then ascii_of_nat (n + 32) else c.

Fixpoint lower (s : string) : string :=
  match s with
  | EmptyString => EmptyString
  | String c s' => String (lower_char c) (lower s')
  end.

Fixpoint lstrip (s : string) : string :=
  match s with
  | EmptyString => EmptyString
  | String c s' => if isspace c then lstrip s' else s
  end.

Fixpoint rstrip (s : string) : string :=
  match s with
  | EmptyString => EmptyString
  | String c s' =>
      match rstrip s' with
      | EmptyString => if isspace c then EmptyString else String c EmptyString
      | r => String c r
      end
  end.

(** [s.strip()] *)
Definition strip (s : string) : string := rstrip (lstrip s).

(** [s.split(sep)] for a one-character separator: every occurrence
    cuts, consecutive separators give empty pieces, and the result is
    never empty ([''.split(' ') == ['']]). *)
Fixpoint split (sep : ascii) (s : string) : list string :=
  match s with
  | EmptyString => [EmptyString]
  | String c s' =>
      if Ascii.eqb c sep then EmptyString :: split sep s'
      else match split sep s' with
           | h :: t => String c h :: t
           | [] => [String c EmptyString]
           end
  end.

(** [s.startswith(p)] *)
Definition startswith (s p : string) : bool := String.prefix p s.

(** [s.startswith(tuple(ps))] *)
Definition startswith_any (s : string) (ps : list string) : bool :=
  existsb (startswith s) ps.

(** [s.replace(old, new)] for a non-empty [old]: scan from the left; at
    a position where [old] starts, emit [new] and jump over [old]
    ([skip] counts the characters of the match still to jump over). *)
Fixpoint replace_scan (old new s : string) (skip : nat) : string :=
  match s with
  | EmptyString => EmptyString
  | String c s' =>
      match skip with
      | S n => replace_scan old new s' n
      | O =>
          if String.prefix old s
          then String.append new (replace_scan old new s' (String.length old - 1))
          else String c (replace_scan old new s' 0)
      end
  end.

(** With an empty [old], Python puts [new] before every character and
    at the end. *)
Fixpoint replace_empty (new s : string) : string :=
  match s with
  | EmptyString => new
  | String c s' => String.append new (String c (replace_empty new s'))
  end.

Definition replace (s old new : string) : string :=
  match old with
  | EmptyString => replace_empty new s
  | _ => replace_scan old new s 0
  end.

(** ["\n"] *)
Definition newline : ascii := "010"%char.

(** [bool(s)] for a [str]. *)
Definition truthy (s : string) : bool :=
  match s with EmptyString => false | _ => true end.

(** A value that is either [None] or a [str]. *)
Inductive value : Type :=
| PyNone
| PyStr (s : string).

(** [str(v)] *)
Definition str (v : value) : string :=
  match v with
  | PyNone => "None"
  | PyStr s => s
  end.

(** [v is None] *)
Definition is_None (v : value) : bool :=
  match v with PyNone => true | PyStr _ => false end.

End Py.

(* ===================================================================== *)
(** * Exceptions *)
(* ===================================================================== *)

Inductive exn : Type :=
| IndexError
| KeyError (key : string)
| AttributeError
| EOFError
| FileNotFoundError
| RequestException.

Inductive result (A : Type) : Type :=
| Ok (a : A)
| Raise (e : exn).
Arguments Ok {A} a.
Arguments Raise {A} e.

Definition bind {A B : Type} (r : result A) (f : A -> result B) : result B :=
  match r with
  | Ok a => f a
  | Raise e => Raise e
  end.

Declare Scope result_scope.
Delimit Scope result_scope with result.
Notation "x <- c ;; k" := (bind c (fun x => k))
  (at level 61, c at next level, right associativity) : result_scope.

(* ===================================================================== *)
(** * difflib.SequenceMatcher (isjunk = None, autojunk = True) *)
(* ===================================================================== *)

Module Difflib.

Section SequenceMatcher.

Context {A : Type} (eqb : A -> A -> bool).

(** [__chain_b]: with at least 200 elements in [b], an element that
    occurs more than [n // 100 + 1] times is "popular" and is deleted
    from [b2j]. *)
Definition bpopular (b : list A) (x : A) : bool :=
  (200 <=? List.length b)
  && (List.length b / 100 + 1 <? List.length (filter (eqb x) b)).

(** The functions below work on the slices [a[alo:ahi]] and
    [b[blo:bhi]]; indices are relative to the slice. [pop] is the set of
    popular elements of the whole [b], fixed by [__chain_b]. *)
Variable pop : A -> bool.

(** [a[i] == b[j]] *)
Definition same_at (a b : list A) (i j : nat) : bool :=
  match nth_error a i, nth_error b j with
  | Some x, Some y => eqb x y
  | _, _ => false
  end.

(** One round of the outer loop of [find_longest_match], for [x = a[i]]:
    the inner loop visits the indices [j] of [b2j[x]] in ascending
    order. [j2len] is kept as the list of its values by [j] (0 where the
    dict has no entry); [prev] is the part of the old [j2len] from [j]
    on, [diag] is [j2len.get(j-1, 0)]. *)
Fixpoint scan_row (i : nat) (x : A) (b : list A) (j : nat)
    (prev : list nat) (diag : nat) (best : nat * nat * nat)
    : list nat * (nat * nat * nat) :=
  match b with
  | [] => ([], best)
  | y :: b' =>
      let k := if eqb x y && negb (pop x) then S diag else 0 in
      let best' :=
        let '(_, _, bestsize) := best in
        if bestsize <? k then (i + 1 - k, j + 1 - k, k) else best in
      let '(row, best'') :=
        scan_row i x b' (S j) (tl prev) (hd 0 prev) best' in
      (k :: row, best'')
  end.

(** [for i in range(alo, ahi): ...] *)
Fixpoint longest_loop (a b : list A) (i : nat) (j2len : list nat)
    (best : nat * nat * nat) : nat * nat * nat :=
  match a with
  | [] => best
  | x :: a' =>
      let '(newj2len, best') := scan_row i x b 0 j2len 0 best in
      longest_loop a' b (S i) newj2len best'
  end.

(** [while besti > alo and bestj > blo and a[besti-1] == b[bestj-1]]
    ([isbjunk] is constantly false: there is no junk). *)
Fixpoint extend_left (a b : list A) (i j k : nat) : nat * nat * nat :=
  match i, j with
  | S i', S j' =>
      if same_at a b i' j' then extend_left a b i' j' (S k) else (i, j, k)
  | _, _ => (i, j, k)
  end.

(** Number of iterations of
    [while besti+bestsize < ahi and bestj+bestsize < bhi and
           a[besti+bestsize] == b[bestj+bestsize]],
    read off the two suffixes that start at [besti+bestsize] and
    [bestj+bestsize]. *)
Fixpoint common_prefix (u v : list A) : nat :=
  match u, v with
  | x :: u', y :: v' => if eqb x y then S (common_prefix u' v') else 0
  | _, _ => 0
  end.

Definition extend_right (a b : list A) (i j k : nat) : nat :=
  k + common_prefix (skipn (i + k) a) (skipn (j + k) b).

(** [find_longest_match(alo, ahi, blo, bhi)] on the two slices. The
    last two loops of the source extend over junk only and never run. *)
Definition find_longest_match (a b : list A) : nat * nat * nat :=
  let '(i, j, k) := longest_loop a b 0 [] (0, 0, 0) in
  let '(i, j, k) := extend_left a b i j k in
  (i, j, extend_right a b i j k).

(** [sum(triple[-1] for triple in get_matching_blocks())]: every queue
    entry [(alo, ahi, blo, bhi)] contributes the size of its longest
    match and pushes the slices to its left and to its right; merging
    adjacent blocks and appending the sentinel of size 0 leave the sum
    unchanged. [fuel] bounds the nesting of queue entries. *)
Fixpoint matched (fuel : nat) (a b : list A) : nat :=
  match fuel with
  | O => 0
  | S fuel' =>
      let '(i, j, k) := find_longest_match a b in
      if k =? 0 then 0
      else
        k
        + (if (0 <? i) && (0 <? j)
           then matched fuel' (firstn i a) (firstn j b) else 0)
        + (if (i + k <? List.length a) && (j + k <? List.length b)
           then matched fuel' (skipn (i + k) a) (skipn (j + k) b) else 0)
  end.

End SequenceMatcher.

(** Two invariants of the search, used to bound its result. *)

(** Every entry of a [j2len] row whose first column is [j] is at most
    [i] and at most its column plus one. *)
Definition row_ok (i j : nat) (row : list nat) : Prop :=
  forall n v, nth_error row n = Some v -> v <= i /\ v <= j + n + 1.

(** The block [(besti, bestj, bestsize)] lies within the first [n]
    elements of [a] and the first [m] elements of [b]. *)
Definition block_ok (n m : nat) (best : nat * nat * nat) : Prop :=
  let '(bi, bj, bk) := best in bi + bk <= n /\ bj + bk <= m.

(** [SequenceMatcher(None, a, b)]'s matched-character count. *)
Definition matches {A : Type} (eqb : A -> A -> bool) (a b : list A) : nat :=
  matched eqb (bpopular eqb b) (S (List.length a)) a b.

(** [_calculate_ratio(matches, length)]: [2.0 * matches / length], and
    [1.0] when both sequences are empty. The float is modelled by the
    exact rational. *)
Definition calculate_ratio (m length : nat) : Q :=
  if length =? 0 then 1%Q
  else Qmake (Z.of_nat (2 * m)) (Pos.of_nat length).

(** [SequenceMatcher(None, a, b).ratio()] on two [str]. *)
Definition ratio (a b : string) : Q :=
  let a := list_ascii_of_string a in
  let b := list_ascii_of_string b in
  calculate_ratio (matches Ascii.eqb a b) (List.length a + List.length b).

End Difflib.

(* ===================================================================== *)
(** * [sorted(xs, key=...)] and [xs[-1]] *)
(* ===================================================================== *)

Section SortedByKey.

Context {T K : Type} (key : T -> K) (ltb : K -> K -> bool).

(** Python's sort is stable and compares keys with [<] only. Inserting
    the elements from the right, each one before the first element whose
    key is not smaller, yields the stable ascending order. *)
Fixpoint insert_by (x : T) (l : list T) : list T :=
  match l with
  | [] => [x]
  | y :: l' => if ltb (key y) (key x) then y :: insert_by x l' else x :: y :: l'
  end.

Definition sorted_by (l : list T) : list T := fold_right insert_by [] l.

(** [l[-1]] *)
Definition last_item (l : list T) : result T :=
  match l with
  | [] => Raise IndexError
  | x :: l' => Ok (last l' x)
  end.

(** [y] does not come before [x]: not [key y < key x]. *)
Definition ascending (x y : T) : Prop := ltb (key y) (key x) = false.

End SortedByKey.

(** [x < y] on scores. *)
Definition Qltb (x y : Q) : bool := negb (Qle_bool y x).

(* ===================================================================== *)
(** * [dict] and [pandas.DataFrame] *)
(* ===================================================================== *)

(** A [dict] from [str] to [str]: entries in insertion order, one per
    key. *)
Definition dict : Type := list (string * string).

Definition dict_keys (d : dict) : list string := map fst d.

(** [d.get(k)] *)
Fixpoint dict_get (k : string) (d : dict) : option string :=
  match d with
  | [] => None
  | (k', v) :: d' => if String.eqb k' k then Some v else dict_get k d'
  end.

(** [d[k]] *)
Definition dict_item (k : string) (d : dict) : result string :=
  match dict_get k d with
  | Some v => Ok v
  | None => Raise (KeyError k)
  end.

(** [d[k] = v]: an existing key keeps its place. *)
Fixpoint dict_set (k v : string) (d : dict) : dict :=
  match d with
  | [] => [(k, v)]
  | (k', v') :: d' =>
      if String.eqb k' k then (k', v) :: d' else (k', v') :: dict_set k v d'
  end.

(** [del d[k]] for a key that may be absent. *)
Definition dict_remove (k : string) (d : dict) : dict :=
  filter (fun kv => negb (String.eqb (fst kv) k)) d.

(** [{**d1, **d2}] *)
Definition dict_merge (d1 d2 : dict) : dict :=
  fold_left (fun d kv => dict_set (fst kv) (snd kv) d) d2 d1.

(** A frame of [str] cells: the column labels and one [dict] per row; a
    label missing from a row is a NaN cell. *)
Record DataFrame : Type := {
  df_columns : list string;
  df_rows : list dict
}.

(** Labels of [l2] not yet in [l1], appended in order. *)
Definition add_labels (l1 l2 : list string) : list string :=
  fold_left (fun acc k => if existsb (String.eqb k) acc then acc else acc ++ [k])
            l2 l1.

(** [pd.DataFrame(records)]: the columns are the keys of the records in
    order of first appearance. *)
Definition frame_of_records (records : list dict) : DataFrame :=
  {| df_columns := fold_left (fun acc r => add_labels acc (dict_keys r)) records [];
     df_rows := records |}.

(** ["c" in df.columns] *)
Definition has_column (df : DataFrame) (c : string) : bool :=
  existsb (String.eqb c) (df_columns df).

(** The values of [df[c]] as the decomposers read them: they call
    [.strip()] on every truthy value, which a NaN (a float) lacks. *)
Fixpoint column_values (c : string) (rows : list dict) : result (list string) :=
  match rows with
  | [] => Ok []
  | r :: rows' =>
      match dict_get c r with
      | None => Raise AttributeError
      | Some v =>
          match column_values c rows' with
          | Ok vs => Ok (v :: vs)
          | Raise e => Raise e
          end
      end
  end.

(** [df[c] = values] with one value per row. *)
Definition set_column (c : string) (values : list string) (df : DataFrame)
    : DataFrame :=
  {| df_columns := add_labels (df_columns df) [c];
     df_rows := map (fun rv => dict_set c (snd rv) (fst rv))
                    (combine (df_rows df) values) |}.

(** [df.drop(c, axis=1)] for a column that exists. *)
Definition drop_column (c : string) (df : DataFrame) : DataFrame :=
  {| df_columns := filter (fun k => negb (String.eqb k c)) (df_columns df);
     df_rows := map (dict_remove c) (df_rows df) |}.

(** Order of two cells in an ascending sort with [na_position="last"]:
    [str] values by code points, NaN after every value. *)
Definition cell_compare (x y : option string) : comparison :=
  match x, y with
  | Some a, Some b => String.compare a b
  | Some _, None => Lt
  | None, Some _ => Gt
  | None, None => Eq
  end.

(** Lexicographic order of two rows on the columns [labels]. *)
Fixpoint rows_compare (labels : list string) (r1 r2 : dict) : comparison :=
  match labels with
  | [] => Eq
  | c :: labels' =>
      match cell_compare (dict_get c r1) (dict_get c r2) with
      | Eq => rows_compare labels' r1 r2
      | o => o
      end
  end.

(** [r1] sorts strictly before [r2]. *)
Definition row_ltb (labels : list string) (r1 r2 : dict) : bool :=
  match rows_compare labels r1 r2 with Lt => true | _ => false end.

(** The first label of [labels] that is not a column, if any. *)
Definition missing_label (df : DataFrame) (labels : list string) : option string :=
  find (fun c => negb (has_column df c)) labels.

(** [df.sort_values(by)]: [KeyError] on the first label that is not a
    column, else a stable ascending sort on the tuple of the [labels] cells.
    ([reset_index(drop=True)] renumbers the rows and changes nothing
    here.) *)
Definition sort_values (labels : list string) (df : DataFrame) : result DataFrame :=
  match missing_label df labels with
  | Some c => Raise (KeyError c)
  | None =>
      Ok {| df_columns := df_columns df;
            df_rows := sorted_by (fun r => r) (row_ltb labels) (df_rows df) |}
  end.

(* ===================================================================== *)
(** * [class DDOWikiScraper] *)
(* ===================================================================== *)

Module Scraper.

Import Py.

(** ** [get_closest_matching_quest] *)

(** The score of one candidate, as the loop body computes it from an
    element of the already converted [candidate_names]. *)
Definition similarity (quest_name : string) (candidate_name : value) : Q :=
  let candidate_name :=
    if is_None candidate_name then PyStr "" else candidate_name in
  let candidate_name := str candidate_name in
  Difflib.ratio (strip (lower quest_name)) (strip (lower candidate_name)).

Definition candidate_scores (quest_name : string) (candidate_names : list value)
    : list Q :=
  map (similarity quest_name) candidate_names.

(** [list(zip(candidate_scores, candidate_names))]. The candidates
    are converted with [str] before the loop runs, so the loop's
    [is None] test sees [str] objects only. *)
Definition scored_candidates (quest_name : string)
    (candidate_names : list value) : list (Q * value) :=
  (* Clean up the input variables. *)
  let quest_name := str (PyStr quest_name) in
  let candidate_names := map (fun c => PyStr (str c)) candidate_names in
  (* Collect the similarity scores of the candidates. *)
  let candidate_scores := candidate_scores quest_name candidate_names in
  combine candidate_scores candidate_names.

Definition get_closest_matching_quest (quest_name : string)
    (candidate_names : list value) : result string :=
  (* Sort the candidates by their similarity scores. *)
  let candidates :=
    sorted_by fst Qltb (scored_candidates quest_name candidate_names) in
  (* Return the candidate name with the highest similarity score. *)
  match last_item (map snd candidates) with
  | Ok y => Ok (str y)
  | Raise e => Raise e
  end.

(** ** [get_monster_info] *)

(** The lines kept by the three filters at the head of the function. *)
Definition filtered_lines (keywords : list string) (text : string)
    : list string :=
  let lines := split newline text in
  let lines := map strip lines in
  let lines := filter truthy lines in
  filter (fun line => startswith_any line keywords) lines.

(** The inner [for ... else] for one keyword. *)
Definition raw_value (lines : list string) (keyword : string) : string :=
  match find (fun line => startswith line keyword) lines with
  | Some line => line
  | None => ""
  end.

(** The outer loop: [monster_info[keyword] = ...] for each keyword. *)
Definition scan_keywords (lines keywords : list string) : dict :=
  fold_left (fun monster_info keyword =>
               dict_set keyword (raw_value lines keyword) monster_info)
            keywords [].

(** The body of the cleaning loop. *)
Definition clean_value (key value : string) : string :=
  let value := replace value key "" in
  let value := replace value ":" "" in
  let value := replace value "(List)" "" in
  strip value.

Definition clean_info (monster_info : dict) : dict :=
  map (fun kv => (fst kv, clean_value (fst kv) (snd kv))) monster_info.

(** [get_monster_info] after the page text has been fetched. *)
Definition monster_info_of_text (keywords : list string) (text : string) : dict :=
  clean_info (scan_keywords (filtered_lines keywords text) keywords).

(** ** [get_lawfulness], [get_goodness] *)

Definition canonical_alignment (alignment : string) : string :=
  let alignment := strip alignment in
  if String.eqb (lower alignment) "true neutral" then "Neutral Neutral"
  else alignment.

Definition lawfulness_of (alignment : string) : string :=
  if truthy alignment then
    let split := split " "%char (canonical_alignment alignment) in
    if List.length split <? 1 then ""
    else if List.length split =? 1 then nth 0 split ""
    else nth 0 split ""
  else "".

Definition goodness_of (alignment : string) : string :=
  if truthy alignment then
    let split := split " "%char (canonical_alignment alignment) in
    if List.length split <? 1 then ""
    else if List.length split =? 1 then nth 0 split ""
    else nth 1 split ""
  else "".

Definition get_lawfulness (alignments : list string) : list string :=
  map lawfulness_of alignments.

Definition get_goodness (alignments : list string) : list string :=
  map goodness_of alignments.

(** ** [get_monsters_in_quest] *)

Local Open Scope result_scope.

(** What the wiki answers: the three page readers, each of which may
    raise (a failed request, a page without the expected section). *)
Record Wiki : Type := {
  get_quest_urls : result dict;
  get_monster_urls : string -> result dict;
  content_text : string -> result string
}.

Record Configs : Type := {
  columns : list string
}.

Definition get_monster_info (configs : Configs) (wiki : Wiki) (url : string)
    : result dict :=
  text <- content_text wiki url ;;
  Ok (monster_info_of_text (columns configs) text).

(** [[{**{"Name": key}, **self.get_monster_info(value)} for key, value in
    monster_urls.items()]] *)
Fixpoint collect_monster_info (configs : Configs) (wiki : Wiki)
    (monster_urls : dict) : result (list dict) :=
  match monster_urls with
  | [] => Ok []
  | (key, value) :: rest =>
      info <- get_monster_info configs wiki value ;;
      infos <- collect_monster_info configs wiki rest ;;
      Ok (dict_merge [("Name", key)] info :: infos)
  end.

Definition sort_labels : list string := ["Lawfulness"; "Goodness"; "Race"; "Name"].

(** The [if "Alignment" in df.columns:] block. *)
Definition derive_axes (df : DataFrame) : result DataFrame :=
  if has_column df "Alignment" then
    alignments <- column_values "Alignment" (df_rows df) ;;
    let df := set_column "Lawfulness" (get_lawfulness alignments) df in
    let df := set_column "Goodness" (get_goodness alignments) df in
    Ok (drop_column "Alignment" df)
  else Ok df.

(** "Clean up the monster_info into a DataFrame." *)
Definition monster_table (monster_info : list dict) : result DataFrame :=
  let df := frame_of_records monster_info in
  df <- derive_axes df ;;
  sort_values sort_labels df.

Definition get_monsters_in_quest (configs : Configs) (wiki : Wiki)
    (quest_name : string) : result DataFrame :=
  quest_urls <- get_quest_urls wiki ;;
  closest_matching_quest <-
    get_closest_matching_quest quest_name (map PyStr (dict_keys quest_urls)) ;;
  quest_url <- dict_item closest_matching_quest quest_urls ;;
  monster_urls <- get_monster_urls wiki quest_url ;;
  monster_info <- collect_monster_info configs wiki monster_urls ;;
  monster_table monster_info.

(** ** [main_loop] *)

(** How the loop ends: one of the two [break]s, or an exception that
    nothing catches. *)
Inductive ending : Type :=
| QuitToken
| ConfigsNotFound
| Uncaught (e : exn).

Definition is_quit (user_input : string) : bool :=
  existsb (String.eqb user_input) ["q"; "quit"; "exit"].

(** [user_input.strip().lower()] *)
Definition normalized (user_input : string) : string :=
  lower (strip user_input).

(** The loop over the lines typed at the prompt ([input()] raises
    [EOFError] when there is none left). [load_configs] is the outcome of
    opening and parsing [configs.yaml]; the result is the tables printed
    and the way the loop ended. *)
Fixpoint main_loop (load_configs : result Configs) (wiki : Wiki)
    (inputs : list string) : list DataFrame * ending :=
  match inputs with
  | [] => ([], Uncaught EOFError)
  | user_input :: inputs' =>
      let user_input := normalized user_input in
      if is_quit user_input then ([], QuitToken)
      else
        match load_configs with
        | Raise FileNotFoundError => ([], ConfigsNotFound)
        | Raise e => ([], Uncaught e)
        | Ok configs =>
            match get_monsters_in_quest configs wiki user_input with
            | Raise e => ([], Uncaught e)
            | Ok df =>
                let '(printed, e) := main_loop load_configs wiki inputs' in
                (df :: printed, e)
            end
        end
  end.

(** A line that is a query and whose resolution returns a table. *)
Definition resolves (configs : Configs) (wiki : Wiki) (line : string) : Prop :=
  is_quit (normalized line) = false
  /\ exists df, get_monsters_in_quest configs wiki (normalized line) = Ok df.

End Scraper.

(* ===================================================================== *)
(** * A small wiki to run the scraper on *)
(* ===================================================================== *)

Module Example.

Import Scraper.

Definition line (s : string) (rest : string) : string :=
  String.append s (String Py.newline rest).

Definition goblin_page : string :=
  line "Goblin" (line "Race: Goblinoid (List)"
    (line "Alignment: Chaotic Evil" "Type: Humanoid")).

Definition kobold_page : string :=
  line "Kobold" (line "Race: Reptilian"
    (line "Alignment: Lawful Evil" "Type: Humanoid")).

(** Two quests; the page of the first lists two monsters, the page of
    the second cannot be fetched. *)
Definition wiki : Wiki :=
  {| get_quest_urls :=
       Ok [("The Pit", "/page/The_Pit"); ("The Shroud", "/page/The_Shroud")];
     get_monster_urls := fun url =>
       if String.eqb url "/page/The_Pit"
       then Ok [("Goblin", "/page/Goblin"); ("Kobold", "/page/Kobold")]
       else Raise RequestException;
     content_text := fun url =>
       if String.eqb url "/page/Goblin" then Ok goblin_page
       else if String.eqb url "/page/Kobold" then Ok kobold_page
       else Raise RequestException |}.

(** A wiki that answers every request. *)
Definition full_wiki : Wiki :=
  {| get_quest_urls := Ok [("The Pit", "/page/The_Pit")];
     get_monster_urls := fun _ =>
       Ok [("Goblin", "/page/Goblin"); ("Kobold", "/page/Kobold")];
     content_text := fun url =>
       if String.eqb url "/page/Goblin" then Ok goblin_page else Ok kobold_page |}.

Definition configs : Configs := {| columns := ["Race"; "Alignment"; "Type"] |}.

Definition configs_without_alignment : Configs := {| columns := ["Race"; "Type"] |}.

Definition configs_without_race : Configs := {| columns := ["Alignment"; "Type"] |}.

End Example.

(* ===================================================================== *)
(** * The cleaning step in the words of the specification *)
(* ===================================================================== *)

Module Spec.

(** [s[n:]] *)
Fixpoint drop (n : nat) (s : string) : string :=
  match n, s with
  | S n', String _ s' => drop n' s'
  | _, _ => s
  end.

(** The first occurrence of [old] in [s]: what stands before it and what
    stands after it. *)
Fixpoint cut_first (old s : string) : option (string * string) :=
  if String.prefix old s then Some (EmptyString, drop (String.length old) s)
  else
    match s with
    | EmptyString => None
    | String c s' =>
        match cut_first old s' with
        | Some (pre, post) => Some (String c pre, post)
        | None => None
        end
    end.

(** "Remove the keyword text itself (first occurrence)". *)
Definition remove_first (old s : string) : string :=
  match cut_first old s with
  | Some (pre, post) => String.append pre post
  | None => s
  end.

(** "Remove ... wherever it occurs": cut out the first occurrence, then
    go on in what follows it. *)
Fixpoint remove_every_from (fuel : nat) (old s : string) : string :=
  match fuel with
  | O => s
  | S fuel' =>
      match cut_first old s with
      | Some (pre, post) => String.append pre (remove_every_from fuel' old post)
      | None => s
      end
  end.

Definition remove_every (old s : string) : string :=
  match old with
  | EmptyString => s
  | _ => remove_every_from (String.length s) old s
  end.

(** The cleaning of a raw value line as the specification words it: the
    first occurrence of the keyword, all colons, every "(List)", then
    trim. *)
Definition clean_value_first (key value : string) : string :=
  Py.strip (remove_every "(List)" (remove_every ":" (remove_first key value))).

(** The same with every occurrence of the keyword removed. *)
Definition clean_value_every (key value : string) : string :=
  Py.strip (remove_every "(List)" (remove_every ":" (remove_every key value))).

(** The keyword occurs a second time after its first occurrence. *)
Definition occurs_again (key value : string) : bool :=
  match cut_first key value with
  | Some (_, post) =>
      match cut_first key post with Some _ => true | None => false end
  | None => false
  end.

(** The sort key of a row: its four cells, NaN where one is missing. *)
Definition sort_key (r : dict)
    : option string * option string * option string * option string :=
  (dict_get "Lawfulness" r, dict_get "Goodness" r,
   dict_get "Race" r, dict_get "Name" r).

Definition cell_lt (x y : option string) : Prop := cell_compare x y = Lt.

(** "Non-decreasing under the tuple (Lawfulness, Goodness, Race, Name)
    lexicographically". *)
Definition key_le
    (k1 k2 : option string * option string * option string * option string)
    : Prop :=
  let '(l1, g1, r1, n1) := k1 in
  let '(l2, g2, r2, n2) := k2 in
  cell_lt l1 l2
  \/ (l1 = l2
      /\ (cell_lt g1 g2
          \/ (g1 = g2
              /\ (cell_lt r1 r2
                  \/ (r1 = r2 /\ (cell_lt n1 n2 \/ n1 = n2)))))).

Definition rows_in_order (r1 r2 : dict) : Prop :=
  key_le (sort_key r1) (sort_key r2).

End Spec.

(* ===================================================================== *)
(** * Further definitions *)
(* ===================================================================== *)

From Stdlib Require Import Permutation.

Module More.

Import Py Scraper.

(** The lines of [get_monster_info] before its keyword pre-filter:
    split at newlines, trimmed, the empty ones dropped. *)
Definition nonblank_lines (text : string) : list string :=
  filter truthy (map strip (split newline text)).

(** The characters of a [str]. *)
Definition chars (s : string) : list ascii := list_ascii_of_string s.

(** What the [if "Alignment" in df.columns:] block makes of one row that
    has an alignment: the two derived cells are set, the raw cell is
    dropped. A row without the cell is left as it is. *)
Definition derived_row (r : dict) : dict :=
  match dict_get "Alignment" r with
  | Some alignment =>
      dict_remove "Alignment"
        (dict_set "Goodness" (goodness_of alignment)
           (dict_set "Lawfulness" (lawfulness_of alignment) r))
  | None => r
  end.

(** The keys of every collected record: "Name", then the keywords, each
    once. *)
Definition record_keys (keywords : list string) : list string :=
  add_labels ["Name"] (add_labels [] keywords).

End More.

(* ===================================================================== *)
(** * [utils.py] *)
(* ===================================================================== *)

Module Utils.


End Utils.

(* ===================================================================== *)
(** * The link loop of [get_quest_urls] and [get_monster_urls] *)
(* ===================================================================== *)

Module Harvest.

(** The two ways the loop body can raise. *)
Inductive failure : Type :=
| NotSubscriptable          (* TypeError: [None["title"]] *)
| MissingAttribute (name : string).   (* KeyError from [tag[name]] *)

(** What [cell.find("a")] gave for one first-column cell: [None], or
    the attributes of the first link in the cell. *)
Definition anchor : Type := option dict.

Definition title_of (a : anchor) : option string :=
  match a with Some attrs => dict_get "title" attrs | None => None end.

Definition href_of (a : anchor) : option string :=
  match a with Some attrs => dict_get "href" attrs | None => None end.

(** The loop that fills [quest_urls] (and [monster_urls]): for every
    cell, [title = a["title"]], [href = a["href"]] and
    [urls[title] = urljoin(base, href)]. [urljoin] stands for
    [urllib.parse.urljoin], [base] for [configs["ddo_wiki_base_url"]]. *)
Fixpoint links (urljoin : string -> string -> string) (base : string)
    (anchors : list anchor) (urls : dict) : failure + dict :=
  match anchors with
  | [] => inr urls
  | a :: rest =>
      match a with
      | None => inl NotSubscriptable
      | Some attrs =>
          match dict_get "title" attrs with
          | None => inl (MissingAttribute "title")
          | Some title =>
              match dict_get "href" attrs with
              | None => inl (MissingAttribute "href")
              | Some href =>
                  links urljoin base rest
                    (dict_set title (urljoin base href) urls)
              end
          end
      end
  end.

(** A cell the loop body gets through. *)
Definition well_formed (a : anchor) : Prop :=
  title_of a <> None /\ href_of a <> None.

End Harvest.

(* ===================================================================== *)
(** * Matching blocks: what the search computes *)
(* ===================================================================== *)

Module Blocks.

(** [a[i:i+k]] and [b[j:j+k]] exist and are equal, element by element. *)
Definition common {A : Type} (a b : list A) (i j k : nat) : Prop :=
  forall t, t < k ->
    exists x, nth_error a (i + t) = Some x /\ nth_error b (j + t) = Some x.

(** The entries of a [j2len] row after [i] elements of [a]: each one is
    the length of a common run that ends just before [a[i]] and at its
    own column of [b]. *)
Definition row_sound {A : Type} (a b : list A) (i j : nat) (row : list nat)
    : Prop :=
  forall n v, nth_error row n = Some v ->
    v <= i /\ v <= j + n + 1 /\ common a b (i - v) (j + n + 1 - v) v.

Definition block_sound {A : Type} (a b : list A) (best : nat * nat * nat)
    : Prop :=
  let '(bi, bj, bk) := best in common a b bi bj bk.

(** For a sequence matched against itself: the length of the run of
    elements that are not popular and end at each position. *)
Fixpoint diag_vals {A : Type} (pop : A -> bool) (l : list A) (d : nat)
    : list nat :=
  match l with
  | [] => []
  | y :: l' =>
      let d' := if pop y then 0 else S d in
      d' :: diag_vals pop l' d'
  end.

(** The bound on the entries of the row before row [i], at column [c]. *)
Definition diag_bound (vals : list nat) (i c : nat) : nat :=
  match i with
  | O => 0
  | S i' => nth (Nat.min i' c) vals 0
  end.

(** The best block so far lies on the diagonal, is at the origin while
    empty, and is at least as long as the first [n] diagonal runs. *)
Definition diag_best (vals : list nat) (n : nat) (best : nat * nat * nat)
    : Prop :=
  let '(bi, bj, bk) := best in
  bi = bj /\ (bk = 0 -> bi = 0) /\ forall m, m < n -> nth m vals 0 <= bk.

End Blocks.
(* ===================================================================== *)
(** * Facts about the library models *)
(* ===================================================================== *)

Example ratio_tide_diet :
  Difflib.ratio "tide" "diet" = (2 # 8)%Q /\ Difflib.ratio "diet" "tide" = (4 # 8)%Q.
Proof. split; vm_compute; reflexivity. Qed.

Example ratio_schism :
  Difflib.ratio "schism" "shroud" = (4 # 12)%Q
  /\ Difflib.ratio "schism" "chronoscope" = (4 # 17)%Q
  /\ Difflib.ratio "schism" "schism" = (12 # 12)%Q.
Proof. repeat split; vm_compute; reflexivity. Qed.

Section SortedByKeyFacts.

Context {T K : Type} (key : T -> K) (ltb : K -> K -> bool).

Lemma last_cons (z : T) l d : last (z :: l) d = last l z.
Proof.
  revert z d. induction l as [|w l IH]; intros z d; [reflexivity|].
  change (last (z :: w :: l) d) with (last (w :: l) d).
  now rewrite !(IH w).
Qed.

Hypothesis ltb_asym : forall a b, ltb a b = true -> ltb b a = false.
Hypothesis ltb_negtrans :
  forall a b c, ltb b a = false -> ltb c b = false -> ltb c a = false.

Lemma insert_by_not_nil x l : insert_by key ltb x l <> [].
Proof. destruct l as [|y l]; simpl; [|destruct (ltb (key y) (key x))]; discriminate. Qed.

Lemma insert_by_In x l z : In z (insert_by key ltb x l) <-> z = x \/ In z l.
Proof.
  induction l as [|y l IH]; simpl.
  - intuition congruence.
  - destruct (ltb (key y) (key x)); simpl; rewrite ?IH; intuition congruence.
Qed.

Lemma insert_by_sorted x l :
  StronglySorted (ascending key ltb) l ->
  StronglySorted (ascending key ltb) (insert_by key ltb x l).
Proof.
  induction 1 as [|y l Hs IH Hy]; simpl.
  - constructor; constructor.
  - destruct (ltb (key y) (key x)) eqn:E.
    + constructor; [exact IH|].
      rewrite Forall_forall in *. intros z Hz.
      apply insert_by_In in Hz. destruct Hz as [->|Hz]; [|auto].
      unfold ascending. now apply ltb_asym.
    + constructor; [constructor; assumption|].
      constructor; [exact E|].
      rewrite Forall_forall in *. intros z Hz.
      unfold ascending. apply ltb_negtrans with (b := key y); [exact E | now apply Hy].
Qed.

Lemma sorted_by_sorted l : StronglySorted (ascending key ltb) (sorted_by key ltb l).
Proof.
  induction l; simpl; [constructor | now apply insert_by_sorted].
Qed.

Lemma sorted_by_nil_iff l : sorted_by key ltb l = [] <-> l = [].
Proof.
  destruct l; simpl; split; try congruence; intros H.
  now apply insert_by_not_nil in H.
Qed.

Lemma sorted_head_last y l d :
  StronglySorted (ascending key ltb) (y :: l) -> l <> [] ->
  ascending key ltb y (last l d).
Proof.
  intros Hs Hl. inversion Hs as [|? ? _ Hy]; subst.
  rewrite Forall_forall in Hy. apply Hy.
  destruct l as [|z l]; [congruence|].
  change (In (last (z :: l) d) (z :: l)).
  clear. revert z. induction l as [|w l IH]; intros z; [now left|].
  right. exact (IH w).
Qed.

(** The last element after inserting [x] into a sorted list: [x] when
    it is strictly above the old last element, the old last otherwise. *)
Lemma last_insert_by x y l d :
  StronglySorted (ascending key ltb) (y :: l) ->
  last (insert_by key ltb x (y :: l)) d
  = if ltb (key (last l y)) (key x) then x else last l y.
Proof.
  revert y. induction l as [|z l IH]; intros y Hs.
  - simpl. destruct (ltb (key y) (key x)); reflexivity.
  - assert (Hs' : StronglySorted (ascending key ltb) (z :: l)) by now inversion Hs.
    specialize (IH z Hs').
    rewrite (last_cons z l y).
    change (insert_by key ltb x (y :: z :: l))
      with (if ltb (key y) (key x) then y :: insert_by key ltb x (z :: l)
            else x :: y :: z :: l).
    destruct (ltb (key y) (key x)) eqn:E.
    + assert (Hne := insert_by_not_nil x (z :: l)).
      destruct (insert_by key ltb x (z :: l)) as [|w r] eqn:Ei; [congruence|].
      change (last (y :: w :: r) d) with (last (w :: r) d).
      exact IH.
    + change (last (x :: y :: z :: l) d) with (last (z :: l) d).
      rewrite (last_cons z l d).
      assert (Hyl : ascending key ltb y (last (z :: l) d)).
      { apply sorted_head_last; [exact Hs | discriminate]. }
      rewrite (last_cons z l d) in Hyl.
      unfold ascending in Hyl.
      rewrite (ltb_negtrans _ _ _ E Hyl). reflexivity.
Qed.

(** [sorted(l, key)[-1]] is the last-listed element of [l] among those
    with the greatest key. *)
Lemma last_sorted_by_spec l :
  l <> [] ->
  exists pre r post,
    l = pre ++ r :: post
    /\ last_item (sorted_by key ltb l) = Ok r
    /\ (forall c, In c pre -> ltb (key r) (key c) = false)
    /\ (forall c, In c post -> ltb (key c) (key r) = true).
Proof.
  induction l as [|x l IH]; [congruence|]; intros _.
  destruct l as [|x' l'].
  - exists [], x, []. simpl. repeat split; intros c [].
  - destruct IH as (pre & r & post & Hl & Hlast & Hpre & Hpost); [discriminate|].
    assert (Hs := sorted_by_sorted (x' :: l')).
    destruct (sorted_by key ltb (x' :: l')) as [|y s] eqn:Es.
    { apply sorted_by_nil_iff in Es. discriminate. }
    simpl in Hlast. injection Hlast as Hr.
    assert (Hins : last_item (sorted_by key ltb (x :: x' :: l'))
                   = Ok (if ltb (key r) (key x) then x else r)).
    { change (sorted_by key ltb (x :: x' :: l'))
        with (insert_by key ltb x (sorted_by key ltb (x' :: l'))).
      rewrite Es.
      assert (Hne := insert_by_not_nil x (y :: s)).
      destruct (insert_by key ltb x (y :: s)) as [|w t] eqn:Ei; [congruence|].
      unfold last_item. f_equal.
      rewrite <- (last_cons w t w), <- Ei, last_insert_by by exact Hs.
      now rewrite Hr. }
    destruct (ltb (key r) (key x)) eqn:E.
    + exists [], x, (x' :: l'). repeat split; [exact Hins | intros c [] |].
      intros c Hc. rewrite Hl in Hc. apply in_app_or in Hc.
      destruct (ltb (key c) (key x)) eqn:Ec; [reflexivity|exfalso].
      destruct Hc as [Hc|[<-|Hc]].
      * specialize (Hpre c Hc).
        rewrite (ltb_negtrans _ _ _ Ec Hpre) in E. discriminate.
      * congruence.
      * specialize (Hpost c Hc). apply ltb_asym in Hpost.
        rewrite (ltb_negtrans _ _ _ Ec Hpost) in E. discriminate.
    + exists (x :: pre), r, post.
      repeat split; [now rewrite Hl | exact Hins | | exact Hpost].
      intros c [<-|Hc]; [exact E | now apply Hpre].
Qed.

End SortedByKeyFacts.

Lemma Qltb_lt x y : Qltb x y = true <-> (x < y)%Q.
Proof.
  unfold Qltb. rewrite negb_true_iff, <- not_true_iff_false, Qle_bool_iff.
  split; [apply Qnot_le_lt | apply Qlt_not_le].
Qed.

Lemma Qltb_ge x y : Qltb x y = false <-> (y <= x)%Q.
Proof. unfold Qltb. now rewrite negb_false_iff, Qle_bool_iff. Qed.

Lemma Qltb_asym a b : Qltb a b = true -> Qltb b a = false.
Proof. rewrite Qltb_lt, Qltb_ge. apply Qlt_le_weak. Qed.

Lemma Qltb_negtrans a b c :
  Qltb b a = false -> Qltb c b = false -> Qltb c a = false.
Proof. rewrite !Qltb_ge. intros H1 H2. now apply Qle_trans with b. Qed.

(* ===================================================================== *)
(** * Bounds on the matching blocks *)
(* ===================================================================== *)

Module DifflibFacts.

Import Difflib.

Section Bounds.

Context {A : Type} (eqb : A -> A -> bool) (pop : A -> bool).

Lemma row_ok_tl i j prev : row_ok i j prev -> row_ok i (S j) (tl prev).
Proof.
  intros H n v Hn. destruct prev as [|p prev]; [now destruct n|].
  simpl in Hn. destruct (H (S n) v Hn). split; lia.
Qed.

Lemma row_ok_hd i j prev : row_ok i j prev -> hd 0 prev <= i /\ hd 0 prev <= S j.
Proof.
  intros H. destruct prev as [|p prev]; simpl; [lia|].
  destruct (H 0 p eq_refl). lia.
Qed.

Lemma block_ok_mono n m n' m' best :
  n <= n' -> m <= m' -> block_ok n m best -> block_ok n' m' best.
Proof. destruct best as [[bi bj] bk]. simpl. lia. Qed.

Lemma scan_row_ok b :
  forall i x j prev diag best,
    diag <= i -> diag <= j -> row_ok i j prev ->
    block_ok (S i) (j + List.length b) best ->
    row_ok (S i) j (fst (scan_row eqb pop i x b j prev diag best))
    /\ block_ok (S i) (j + List.length b)
         (snd (scan_row eqb pop i x b j prev diag best)).
Proof.
  induction b as [|y b IH]; intros i x j prev diag best Hdi Hdj Hprev Hbest.
  - simpl. split; [|exact Hbest]. intros n v Hn. now destruct n.
  - cbn [scan_row].
    set (k := if eqb x y && negb (pop x) then S diag else 0).
    set (best' := let '(_, _, bestsize) := best in
                  if bestsize <? k then (i + 1 - k, j + 1 - k, k) else best).
    assert (Hk : k <= S i /\ k <= S j).
    { subst k. destruct (eqb x y && negb (pop x)); lia. }
    assert (Hbest' : block_ok (S i) (S j + List.length b) best').
    { subst best'. destruct best as [[bi bj] bk].
      destruct (bk <? k).
      - simpl. lia.
      - simpl in *. lia. }
    destruct (row_ok_hd _ _ _ Hprev) as [Hh1 Hh2].
    specialize (IH i x (S j) (tl prev) (hd 0 prev) best' Hh1 Hh2
                  (row_ok_tl _ _ _ Hprev) Hbest').
    destruct (scan_row eqb pop i x b (S j) (tl prev) (hd 0 prev) best')
      as [row best''].
    simpl in *. destruct IH as [IHrow IHbest]. split.
    + intros n v Hn. destruct n as [|n].
      * simpl in Hn. injection Hn as <-. lia.
      * simpl in Hn. destruct (IHrow n v Hn). lia.
    + replace (j + S (List.length b)) with (S (j + List.length b)) by lia.
      exact IHbest.
Qed.

Lemma longest_loop_ok a b :
  forall i j2len best,
    row_ok i 0 j2len -> block_ok i (List.length b) best ->
    block_ok (i + List.length a) (List.length b)
      (longest_loop eqb pop a b i j2len best).
Proof.
  induction a as [|x a IH]; intros i j2len best Hrow Hbest.
  - simpl. now rewrite Nat.add_0_r.
  - cbn [longest_loop].
    assert (H := scan_row_ok b i x 0 j2len 0 best (Nat.le_0_l _) (Nat.le_0_l _)
                   Hrow (block_ok_mono _ _ _ _ _ (Nat.le_succ_diag_r i)
                           (Nat.le_refl _) Hbest)).
    destruct (scan_row eqb pop i x b 0 j2len 0 best) as [row best'].
    simpl in H. destruct H as [Hrow' Hbest'].
    replace (i + List.length (x :: a)) with (S i + List.length a) by (simpl; lia).
    now apply IH.
Qed.

Lemma extend_left_ok a b n m :
  forall i j k, block_ok n m (i, j, k) -> block_ok n m (extend_left eqb a b i j k).
Proof.
  induction i as [|i IH]; intros j k H; [exact H|].
  destruct j as [|j]; [exact H|].
  cbn [extend_left]. destruct (same_at eqb a b i j); [|exact H].
  apply IH. simpl in *. lia.
Qed.

Lemma common_prefix_le u : forall v,
  common_prefix eqb u v <= List.length u /\ common_prefix eqb u v <= List.length v.
Proof.
  induction u as [|x u IH]; intros [|y v]; simpl; try lia.
  destruct (eqb x y); [|lia]. destruct (IH v). lia.
Qed.

(** The block that [find_longest_match] returns lies within both
    slices. *)
Lemma find_longest_match_ok a b :
  block_ok (List.length a) (List.length b) (find_longest_match eqb pop a b).
Proof.
  unfold find_longest_match.
  assert (H0 : row_ok 0 0 []) by (intros n v Hn; now destruct n).
  assert (H := longest_loop_ok a b 0 [] (0, 0, 0) H0 (conj (Nat.le_0_l _) (Nat.le_0_l _))).
  simpl Nat.add in H.
  destruct (longest_loop eqb pop a b 0 [] (0, 0, 0)) as [[i j] k].
  apply (extend_left_ok a b) in H.
  destruct (extend_left eqb a b i j k) as [[i' j'] k'].
  unfold extend_right. simpl in *.
  destruct (common_prefix_le (skipn (i' + k') a) (skipn (j' + k') b)) as [H1 H2].
  rewrite length_skipn in H1, H2. lia.
Qed.

(** The matched characters are at most as many as either slice has. *)
Lemma matched_le fuel : forall a b,
  matched eqb pop fuel a b <= List.length a
  /\ matched eqb pop fuel a b <= List.length b.
Proof.
  induction fuel as [|fuel IH]; intros a b; [simpl; lia|].
  cbn [matched].
  assert (H := find_longest_match_ok a b).
  destruct (find_longest_match eqb pop a b) as [[i j] k].
  simpl in H. destruct (Nat.eqb_spec k 0) as [->|Hk]; [lia|].
  destruct (IH (firstn i a) (firstn j b)) as [L1 L2].
  destruct (IH (skipn (i + k) a) (skipn (j + k) b)) as [R1 R2].
  rewrite length_firstn in L1, L2. rewrite length_skipn in R1, R2.
  destruct ((0 <? i) && (0 <? j));
    destruct ((i + k <? List.length a) && (j + k <? List.length b)); lia.
Qed.

(** The fuel given by [matches] is enough: any larger amount gives the
    same count, so no queue entry is ever cut short. *)
Lemma matched_fuel f1 : forall f2 a b,
  List.length a < f1 -> List.length a < f2 ->
  matched eqb pop f1 a b = matched eqb pop f2 a b.
Proof.
  induction f1 as [|f1 IH]; intros f2 a b H1 H2; [lia|].
  destruct f2 as [|f2]; [lia|].
  cbn [matched].
  assert (H := find_longest_match_ok a b).
  destruct (find_longest_match eqb pop a b) as [[i j] k].
  simpl in H. destruct (Nat.eqb_spec k 0) as [->|Hk]; [reflexivity|].
  rewrite (IH f2 (firstn i a) (firstn j b))
    by (rewrite length_firstn; lia).
  rewrite (IH f2 (skipn (i + k) a) (skipn (j + k) b))
    by (rewrite length_skipn; lia).
  reflexivity.
Qed.

End Bounds.

Lemma matches_le {A : Type} (eqb : A -> A -> bool) (a b : list A) :
  matches eqb a b <= List.length a /\ matches eqb a b <= List.length b.
Proof. apply matched_le. Qed.

(** An empty sequence on either side matches nothing. *)
Lemma matches_nil_l {A : Type} (eqb : A -> A -> bool) (b : list A) :
  matches eqb [] b = 0.
Proof. destruct (matches_le eqb [] b) as [H _]. simpl in H. lia. Qed.

Lemma matches_nil_r {A : Type} (eqb : A -> A -> bool) (a : list A) :
  matches eqb a [] = 0.
Proof. destruct (matches_le eqb a []) as [_ H]. simpl in H. lia. Qed.

End DifflibFacts.

(* ===================================================================== *)
(** * The fuzzy matcher *)
(* ===================================================================== *)

Module MatcherFacts.

Import Py Scraper.

Lemma last_item_map {A B : Type} (f : A -> B) (l : list A) :
  last_item (map f l)
  = match last_item l with Ok x => Ok (f x) | Raise e => Raise e end.
Proof.
  destruct l as [|x l]; [reflexivity|]. simpl. f_equal.
  revert x. induction l as [|y l IH]; intros x; [reflexivity|].
  change (last (map f (y :: l)) (f x) = f (last (y :: l) x)).
  rewrite (last_cons y l x). simpl map. rewrite (last_cons (f y) (map f l) (f x)).
  apply IH.
Qed.

(** With [str] candidates the conversion is the identity and each one
    is paired with its own score. *)
Lemma scored_candidates_str quest_name (candidate_names : list string) :
  scored_candidates quest_name (map PyStr candidate_names)
  = map (fun c => (similarity quest_name (PyStr c), PyStr c)) candidate_names.
Proof.
  unfold scored_candidates, candidate_scores. simpl str.
  induction candidate_names as [|c l IH]; [reflexivity|].
  simpl. f_equal. exact IH.
Qed.

(** The matcher on a non-empty list of [str] candidates. *)
Lemma closest_match_spec quest_name (candidate_names : list string) :
  candidate_names <> [] ->
  exists pre r post,
    candidate_names = pre ++ r :: post
    /\ get_closest_matching_quest quest_name (map PyStr candidate_names) = Ok r
    /\ In r candidate_names
    /\ (forall c, In c pre ->
          (similarity quest_name (PyStr c) <= similarity quest_name (PyStr r))%Q)
    /\ (forall c, In c post ->
          (similarity quest_name (PyStr c) < similarity quest_name (PyStr r))%Q).
Proof.
  intros Hne.
  unfold get_closest_matching_quest.
  rewrite scored_candidates_str, last_item_map.
  set (pair := fun c => (similarity quest_name (PyStr c), PyStr c)).
  destruct (last_sorted_by_spec (@fst Q value) Qltb Qltb_asym Qltb_negtrans
              (map pair candidate_names))
    as (pre' & r' & post' & Hl & Hlast & Hpre & Hpost).
  { destruct candidate_names; [congruence | discriminate]. }
  apply map_eq_app in Hl. destruct Hl as (pre & rest & -> & <- & Hrest).
  apply map_eq_cons in Hrest. destruct Hrest as (r & post & -> & <- & <-).
  exists pre, r, post. rewrite Hlast. simpl.
  split; [reflexivity|]. split; [reflexivity|].
  split; [apply in_or_app; right; now left|].
  split.
  - intros c Hc. apply Qltb_ge. apply (Hpre (pair c)). now apply in_map.
  - intros c Hc. apply Qltb_lt. apply (Hpost (pair c)). now apply in_map.
Qed.

End MatcherFacts.

(** C10. With no candidate at all the sorted list is empty and taking
    its last element raises [IndexError]: no string is returned,
    whatever the query. *)
Theorem closest_match_of_nothing_raises (quest_name : string) :
  Scraper.get_closest_matching_quest quest_name [] = Raise IndexError
  /\ forall r, Scraper.get_closest_matching_quest quest_name [] <> Ok r.
Proof.
  split; [reflexivity|]. intros r H. discriminate H.
Qed.

(** C1. With a non-empty list of [str] candidates the matcher returns
    one of them, unchanged: the candidate [r] such that every candidate
    listed before it scores at most as much and every candidate listed
    after it scores strictly less, that is the last-listed one among
    those with the greatest score. In particular a single candidate is
    returned as it is, so [match(x, [x]) = x]. *)
Theorem closest_match_is_last_best_candidate
    (quest_name : string) (candidate_names : list string) :
  candidate_names <> [] ->
  (exists pre r post,
      candidate_names = pre ++ r :: post
      /\ Scraper.get_closest_matching_quest quest_name
           (map Py.PyStr candidate_names) = Ok r
      /\ In r candidate_names
      /\ (forall c, In c pre ->
            (Scraper.similarity quest_name (Py.PyStr c)
             <= Scraper.similarity quest_name (Py.PyStr r))%Q)
      /\ (forall c, In c post ->
            (Scraper.similarity quest_name (Py.PyStr c)
             < Scraper.similarity quest_name (Py.PyStr r))%Q))
  /\ Scraper.get_closest_matching_quest quest_name [Py.PyStr quest_name]
     = Ok quest_name.
Proof.
  intros Hne. split; [|reflexivity].
  now apply MatcherFacts.closest_match_spec.
Qed.

Lemma closest_match_is_last_best_candidate_witness :
  ["Shroud"; "Chronoscope"; "Schism"] <> []
  /\ (exists pre r post,
        ["Shroud"; "Chronoscope"; "Schism"] = pre ++ r :: post
        /\ Scraper.get_closest_matching_quest "schism"
             (map Py.PyStr ["Shroud"; "Chronoscope"; "Schism"]) = Ok r
        /\ In r ["Shroud"; "Chronoscope"; "Schism"]
        /\ (forall c, In c pre ->
              (Scraper.similarity "schism" (Py.PyStr c)
               <= Scraper.similarity "schism" (Py.PyStr r))%Q)
        /\ (forall c, In c post ->
              (Scraper.similarity "schism" (Py.PyStr c)
               < Scraper.similarity "schism" (Py.PyStr r))%Q))
  /\ Scraper.get_closest_matching_quest "schism" [Py.PyStr "schism"]
     = Ok "schism".
Proof.
  split; [discriminate|].
  apply (closest_match_is_last_best_candidate "schism"
           ["Shroud"; "Chronoscope"; "Schism"]).
  discriminate.
Defined.

(** C7. A [None] candidate is converted to the text ["None"] before the
    loop's [is None] test can see it, so it is scored as that text: it
    is scored exactly as the candidate ["None"] is, for every query; it
    scores 1 against the query ["none"], where the empty string scores
    0, and the text ["None"] is what the matcher returns for it. *)
Theorem none_candidate_is_scored_as_text :
  (forall quest_name,
      Scraper.scored_candidates quest_name [Py.PyNone]
      = Scraper.scored_candidates quest_name [Py.PyStr "None"])
  /\ Scraper.scored_candidates "none" [Py.PyNone] = [((8 # 8)%Q, Py.PyStr "None")]
  /\ Scraper.scored_candidates "none" [Py.PyStr ""] = [((0 # 4)%Q, Py.PyStr "")]
  /\ Scraper.get_closest_matching_quest "none" [Py.PyStr "nine"; Py.PyNone]
     = Ok "None".
Proof.
  split; [intros quest_name; reflexivity|].
  repeat split; vm_compute; reflexivity.
Qed.

(* ===================================================================== *)
(** * The similarity score *)
(* ===================================================================== *)

Module RatioFacts.

Lemma Zpos_of_nat n : n <> 0 -> Z.pos (Pos.of_nat n) = Z.of_nat n.
Proof. intros H. now rewrite <- positive_nat_Z, Nat2Pos.id. Qed.

(** A count of at most half the total length gives a score in [0, 1]. *)
Lemma calculate_ratio_range m n :
  2 * m <= n ->
  (0 <= Difflib.calculate_ratio m n)%Q /\ (Difflib.calculate_ratio m n <= 1)%Q.
Proof.
  intros H. unfold Difflib.calculate_ratio.
  destruct (Nat.eqb_spec n 0) as [E|E].
  - split; unfold Qle; simpl; lia.
  - unfold Qle. cbn [Qnum Qden]. rewrite Zpos_of_nat by exact E. lia.
Qed.

Lemma length_list_ascii s : List.length (list_ascii_of_string s) = String.length s.
Proof. induction s; simpl; congruence. Qed.

End RatioFacts.

(** C9, as the code has it. The score of [(a, b)] is
    [2 * M / (len a + len b)], where [M], the number of characters in
    the matching blocks found for that order of the arguments, is at most
    the length of the shorter string; so the scores of [(a, b)] and
    [(b, a)] share their denominator and lie in [0, 1], and they are equal
    when one of the two strings is empty. Nothing more is claimed: [M]
    depends on the order of the arguments. *)
Theorem ratio_in_unit_interval_and_symmetric_on_empty (a b : string) :
  (exists m m',
      m <= Nat.min (String.length a) (String.length b)
      /\ m' <= Nat.min (String.length a) (String.length b)
      /\ Difflib.ratio a b
         = Difflib.calculate_ratio m (String.length a + String.length b)
      /\ Difflib.ratio b a
         = Difflib.calculate_ratio m' (String.length a + String.length b))
  /\ (0 <= Difflib.ratio a b)%Q /\ (Difflib.ratio a b <= 1)%Q
  /\ Difflib.ratio a "" = Difflib.ratio "" a.
Proof.
  assert (Hab := DifflibFacts.matches_le Ascii.eqb
                   (list_ascii_of_string a) (list_ascii_of_string b)).
  assert (Hba := DifflibFacts.matches_le Ascii.eqb
                   (list_ascii_of_string b) (list_ascii_of_string a)).
  rewrite !RatioFacts.length_list_ascii in Hab, Hba.
  split; [|split; [|split]].
  - eexists _, _. unfold Difflib.ratio.
    rewrite !RatioFacts.length_list_ascii.
    rewrite (Nat.add_comm (String.length b) (String.length a)).
    repeat split; lia.
  - unfold Difflib.ratio. rewrite !RatioFacts.length_list_ascii.
    apply RatioFacts.calculate_ratio_range. lia.
  - unfold Difflib.ratio. rewrite !RatioFacts.length_list_ascii.
    apply RatioFacts.calculate_ratio_range. lia.
  - unfold Difflib.ratio. cbn [list_ascii_of_string List.length].
    rewrite DifflibFacts.matches_nil_l, DifflibFacts.matches_nil_r.
    now rewrite Nat.add_0_r.
Qed.

(** C9 as stated fails: the score of "tide" against "diet" is 1/4, the
    score of "diet" against "tide" is 1/2. *)
Lemma similarity_not_symmetric :
  ~ (Scraper.similarity "tide" (Py.PyStr "diet")
     == Scraper.similarity "diet" (Py.PyStr "tide"))%Q.
Proof. vm_compute. discriminate. Qed.

(* ===================================================================== *)
(** * The record extractor *)
(* ===================================================================== *)

Module DictFacts.

Lemma dict_get_set_same k v d : dict_get k (dict_set k v d) = Some v.
Proof.
  induction d as [|[k' v'] d IH]; simpl.
  - now rewrite String.eqb_refl.
  - destruct (String.eqb k' k) eqn:E; simpl; rewrite E; [reflexivity | exact IH].
Qed.

Lemma dict_get_set_other k k' v d :
  k' <> k -> dict_get k (dict_set k' v d) = dict_get k d.
Proof.
  intros Hne. induction d as [|[k0 v0] d IH]; simpl.
  - apply String.eqb_neq in Hne. now rewrite Hne.
  - destruct (String.eqb_spec k0 k') as [->|E]; simpl.
    + apply String.eqb_neq in Hne. now rewrite Hne.
    + now rewrite IH.
Qed.

Lemma dict_keys_set k v d :
  dict_keys (dict_set k v d)
  = if existsb (String.eqb k) (dict_keys d) then dict_keys d
    else dict_keys d ++ [k].
Proof.
  induction d as [|[k' v'] d IH]; simpl; [reflexivity|].
  rewrite (String.eqb_sym k k').
  destruct (String.eqb k' k) eqn:E; simpl; [reflexivity|].
  fold (dict_keys d). fold (dict_keys (dict_set k v d)). rewrite IH.
  now destruct (existsb (String.eqb k) (dict_keys d)).
Qed.

Lemma existsb_eqb_In k l : existsb (String.eqb k) l = true <-> In k l.
Proof.
  rewrite existsb_exists. split.
  - intros (x & Hx & E). apply String.eqb_eq in E. now subst.
  - intros H. exists k. split; [exact H | apply String.eqb_refl].
Qed.

Lemma dict_keys_set_In k v d k' :
  In k' (dict_keys (dict_set k v d)) <-> k' = k \/ In k' (dict_keys d).
Proof.
  rewrite dict_keys_set.
  destruct (existsb (String.eqb k) (dict_keys d)) eqn:E.
  - apply existsb_eqb_In in E. intuition congruence.
  - rewrite in_app_iff. simpl. intuition congruence.
Qed.

Lemma dict_keys_set_NoDup k v d :
  NoDup (dict_keys d) -> NoDup (dict_keys (dict_set k v d)).
Proof.
  intros H. rewrite dict_keys_set.
  destruct (existsb (String.eqb k) (dict_keys d)) eqn:E; [exact H|].
  apply NoDup_app; [exact H | repeat constructor; intros [] |].
  intros x Hx [<-|[]]. apply existsb_eqb_In in Hx. congruence.
Qed.

Lemma dict_get_In_keys k d : In k (dict_keys d) <-> exists v, dict_get k d = Some v.
Proof.
  induction d as [|[k' v'] d IH]; simpl.
  - split; [intros [] | intros [v H]; discriminate].
  - destruct (String.eqb_spec k' k) as [->|Hne].
    + split; [intros _; now exists v' | now left].
    + rewrite <- IH. intuition congruence.
Qed.

End DictFacts.

Module ExtractorFacts.

Import Py Scraper DictFacts.

(** The scan, for any dictionary it starts from. *)
Lemma scan_from lines keywords :
  forall monster_info,
    let out := fold_left (fun info keyword =>
                            dict_set keyword (raw_value lines keyword) info)
                         keywords monster_info in
    (NoDup (dict_keys monster_info) -> NoDup (dict_keys out))
    /\ (forall k, In k (dict_keys out)
                  <-> In k keywords \/ In k (dict_keys monster_info))
    /\ (forall k, In k keywords ->
                  dict_get k out = Some (raw_value lines k)).
Proof.
  induction keywords as [|kw keywords IH]; intros monster_info; simpl.
  - repeat split; tauto.
  - destruct (IH (dict_set kw (raw_value lines kw) monster_info))
      as (Hnd & Hin & Hget).
    split; [|split].
    + intros H. apply Hnd. now apply dict_keys_set_NoDup.
    + intros k. rewrite Hin, dict_keys_set_In. intuition congruence.
    + intros k Hk.
      destruct (in_dec string_dec k keywords) as [Hi|Hni]; [now apply Hget|].
      destruct Hk as [->|Hk]; [|contradiction].
      clear - Hni.
      revert monster_info. induction keywords as [|k' ks IHk]; intros d; simpl.
      * apply dict_get_set_same.
      * assert (Hne : k' <> k) by (intros ->; apply Hni; now left).
        assert (Hni' : ~ In k ks) by (intros H; apply Hni; now right).
        specialize (IHk Hni').
        (* the later assignments leave the entry of [k] alone *)
        assert (G : forall d0 v0, dict_get k d0 = Some v0 ->
                  dict_get k (fold_left (fun info keyword =>
                      dict_set keyword (raw_value lines keyword) info) ks d0)
                  = Some v0).
        { clear - Hni'. induction ks as [|k2 ks IH2]; intros d0 v0 H0; [exact H0|].
          simpl. apply IH2; [intros H; apply Hni'; now right|].
          rewrite dict_get_set_other; [exact H0|].
          intros ->. apply Hni'. now left. }
        apply G. rewrite dict_get_set_other by exact Hne.
        apply dict_get_set_same.
Qed.

Lemma clean_info_keys d : dict_keys (clean_info d) = dict_keys d.
Proof. unfold clean_info, dict_keys. rewrite map_map. reflexivity. Qed.

Lemma clean_info_get k d :
  dict_get k (clean_info d) = option_map (clean_value k) (dict_get k d).
Proof.
  induction d as [|[k' v'] d IH]; simpl; [reflexivity|].
  destruct (String.eqb_spec k' k) as [->|Hne]; [reflexivity | exact IH].
Qed.

Lemma clean_value_empty key : clean_value key "" = "".
Proof. destruct key; reflexivity. Qed.

(** [find] returns the first element that passes the test. *)
Lemma find_first {A : Type} (f : A -> bool) l x :
  find f l = Some x ->
  exists before after,
    l = before ++ x :: after /\ f x = true
    /\ forall y, In y before -> f y = false.
Proof.
  induction l as [|a l IH]; simpl; [discriminate|].
  destruct (f a) eqn:E.
  - intros [= ->]. exists [], l. repeat split; [exact E | intros y []].
  - intros H. destruct (IH H) as (before & after & -> & Hx & Hb).
    exists (a :: before), after. repeat split; [exact Hx|].
    intros y [<-|Hy]; [exact E | now apply Hb].
Qed.

End ExtractorFacts.

(** C2. Whatever the text and the keyword list, the scan leaves exactly
    one entry for each configured keyword and none for anything else,
    and the cleaning keeps the keys. For a configured keyword [k], either
    some kept line starts with [k], and then the raw value is the first
    such line (no earlier kept line starts with [k]) and the final value
    is that line cleaned; or no kept line starts with [k], and then both
    the raw and the final value are the empty string, the key being
    present all the same. *)
Theorem one_entry_per_keyword_from_first_line
    (keywords : list string) (text : string) :
  let lines := Scraper.filtered_lines keywords text in
  let raw := Scraper.scan_keywords lines keywords in
  let info := Scraper.monster_info_of_text keywords text in
  NoDup (dict_keys raw)
  /\ dict_keys info = dict_keys raw
  /\ (forall k, In k (dict_keys raw) <-> In k keywords)
  /\ forall k, In k keywords ->
       (exists before line after,
           lines = before ++ line :: after
           /\ Py.startswith line k = true
           /\ (forall l, In l before -> Py.startswith l k = false)
           /\ dict_get k raw = Some line
           /\ dict_get k info = Some (Scraper.clean_value k line))
       \/ ((forall l, In l lines -> Py.startswith l k = false)
           /\ dict_get k raw = Some ""
           /\ dict_get k info = Some "").
Proof.
  intros lines raw info.
  destruct (ExtractorFacts.scan_from lines keywords []) as (Hnd & Hin & Hget).
  fold (Scraper.scan_keywords lines keywords) in Hnd, Hin, Hget. fold raw in Hnd, Hin, Hget.
  split; [apply Hnd; constructor|].
  split; [apply ExtractorFacts.clean_info_keys|].
  split; [intros k; rewrite Hin; simpl; tauto|].
  intros k Hk. specialize (Hget k Hk).
  assert (Hinfo : dict_get k info
                  = Some (Scraper.clean_value k (Scraper.raw_value lines k))).
  { unfold info, Scraper.monster_info_of_text.
    rewrite ExtractorFacts.clean_info_get.
    fold lines. fold raw. now rewrite Hget. }
  unfold Scraper.raw_value in Hget, Hinfo.
  destruct (find (fun line => Py.startswith line k) lines) as [line|] eqn:Ef.
  - left. apply ExtractorFacts.find_first in Ef.
    destruct Ef as (before & after & Hl & Hs & Hb).
    exists before, line, after. repeat split; assumption.
  - right. repeat split.
    + intros l Hl. exact (find_none _ _ Ef l Hl).
    + exact Hget.
    + now rewrite ExtractorFacts.clean_value_empty in Hinfo.
Qed.

Lemma one_entry_per_keyword_from_first_line_witness :
  let keywords := ["Race"; "Type"] in
  let text :=
    String.append "Race: Human"
      (String Py.newline (String.append "Type: Undead"
        (String Py.newline "Race Alt: Elf"))) in
  let lines := Scraper.filtered_lines keywords text in
  let raw := Scraper.scan_keywords lines keywords in
  let info := Scraper.monster_info_of_text keywords text in
  In "Race" keywords
  /\ ((exists before line after,
          lines = before ++ line :: after
          /\ Py.startswith line "Race" = true
          /\ (forall l, In l before -> Py.startswith l "Race" = false)
          /\ dict_get "Race" raw = Some line
          /\ dict_get "Race" info = Some (Scraper.clean_value "Race" line))
      \/ ((forall l, In l lines -> Py.startswith l "Race" = false)
          /\ dict_get "Race" raw = Some ""
          /\ dict_get "Race" info = Some "")).
Proof.
  intros keywords text lines raw info.
  assert (H : In "Race" keywords) by (now left).
  split; [exact H|].
  exact (proj2 (proj2 (proj2
           (one_entry_per_keyword_from_first_line keywords text))) "Race" H).
Defined.

Module CleaningFacts.

Import Py Spec.

Lemma drop_nil n : drop n "" = "".
Proof. now destruct n. Qed.

(** Jumping over [n] characters is scanning what follows them. *)
Lemma replace_scan_skip old new s :
  forall n, replace_scan old new s n = replace_scan old new (drop n s) 0.
Proof.
  induction s as [|c s IH]; intros n.
  - now rewrite drop_nil.
  - destruct n as [|n]; [reflexivity|]. simpl. apply IH.
Qed.

Lemma prefix_nonempty_nil c old : String.prefix (String c old) "" = false.
Proof. reflexivity. Qed.

(** One step of the scan, read as a cut at the first occurrence. *)
Lemma replace_scan_cut c0 old0 s :
  let old := String c0 old0 in
  replace_scan old "" s 0
  = match cut_first old s with
    | Some (pre, post) => String.append pre (replace_scan old "" post 0)
    | None => s
    end.
Proof.
  intros old. induction s as [|c s IH]; [reflexivity|].
  cbn [replace_scan cut_first].
  destruct (String.prefix old (String c s)) eqn:E.
  - cbn [String.append]. rewrite replace_scan_skip.
    subst old. cbn [String.length drop Nat.sub]. now rewrite Nat.sub_0_r.
  - rewrite IH. destruct (cut_first old s) as [[pre post]|]; reflexivity.
Qed.

Lemma length_drop n : forall s, String.length (drop n s) <= String.length s.
Proof.
  induction n as [|n IH]; intros [|c s]; simpl; try lia.
  specialize (IH s). lia.
Qed.

(** What follows an occurrence of a non-empty text is shorter than the
    whole. *)
Lemma cut_first_shorter c0 old0 s :
  forall pre post,
    cut_first (String c0 old0) s = Some (pre, post) ->
    String.length post < String.length s.
Proof.
  induction s as [|c s IH]; intros pre post; [discriminate|].
  cbn [cut_first].
  destruct (String.prefix (String c0 old0) (String c s)).
  - intros [= <- <-]. cbn [String.length drop].
    assert (H := length_drop (String.length old0) s). lia.
  - destruct (cut_first (String c0 old0) s) as [[pre' post']|]; [|discriminate].
    intros [= <- <-]. specialize (IH _ _ eq_refl). simpl. lia.
Qed.

Lemma replace_scan_remove_every c0 old0 fuel :
  forall s, String.length s <= fuel ->
    replace_scan (String c0 old0) "" s 0
    = remove_every_from fuel (String c0 old0) s.
Proof.
  induction fuel as [|fuel IH]; intros s Hs.
  - destruct s; [reflexivity | simpl in Hs; lia].
  - rewrite replace_scan_cut. cbn [remove_every_from].
    destruct (cut_first (String c0 old0) s) as [[pre post]|] eqn:E; [|reflexivity].
    rewrite IH; [reflexivity|].
    apply cut_first_shorter in E. lia.
Qed.

Lemma replace_empty_empty s : replace_empty "" s = s.
Proof. induction s as [|c s IH]; simpl; congruence. Qed.

(** [s.replace(old, "")] removes every occurrence of [old], found from
    left to right. *)
Lemma replace_remove_every s old : replace s old "" = remove_every old s.
Proof.
  destruct old as [|c0 old0]; simpl.
  - apply replace_empty_empty.
  - now apply replace_scan_remove_every.
Qed.

(** With no second occurrence, removing every occurrence is removing
    the first. *)
Lemma remove_every_once key value :
  occurs_again key value = false -> remove_every key value = remove_first key value.
Proof.
  unfold occurs_again, remove_every, remove_first.
  destruct key as [|c0 old0].
  - simpl. destruct value; discriminate.
  - destruct value as [|c s]; [reflexivity|].
    cbn [String.length remove_every_from].
    destruct (cut_first (String c0 old0) (String c s)) as [[pre post]|];
      [|reflexivity].
    destruct (cut_first (String c0 old0) post) eqn:E; [discriminate|].
    intros _. f_equal.
    destruct (String.length s); simpl; [reflexivity | now rewrite E].
Qed.

End CleaningFacts.

(** C3, as the code has it. The cleaned value is obtained by removing
    every occurrence of the keyword text (found from left to right, not
    only the first one), then every colon, then every "(List)", then
    trimming, in this order. When the keyword does not occur a second
    time after its first occurrence, this is the cleaning with only the
    first occurrence removed. *)
Theorem clean_value_removes_every_keyword (key value : string) :
  Scraper.clean_value key value = Spec.clean_value_every key value
  /\ (Spec.occurs_again key value = false ->
      Scraper.clean_value key value = Spec.clean_value_first key value).
Proof.
  assert (H : Scraper.clean_value key value = Spec.clean_value_every key value).
  { unfold Scraper.clean_value, Spec.clean_value_every. cbv zeta.
    now rewrite !CleaningFacts.replace_remove_every. }
  split; [exact H|].
  intros Hocc. rewrite H. unfold Spec.clean_value_every, Spec.clean_value_first.
  now rewrite (CleaningFacts.remove_every_once key value Hocc).
Qed.

Lemma clean_value_removes_every_keyword_witness :
  Spec.occurs_again "Type" "Type: Undead (List)" = false
  /\ Scraper.clean_value "Type" "Type: Undead (List)"
     = Spec.clean_value_first "Type" "Type: Undead (List)".
Proof.
  split; [reflexivity|].
  apply (proj2 (clean_value_removes_every_keyword "Type" "Type: Undead (List)")).
  reflexivity.
Defined.

(** C3 as stated fails: on the line "Type: Undead Type" the code removes
    both occurrences of the keyword "Type" and yields "Undead", where
    removing only the first one yields "Undead Type". *)
Lemma clean_value_not_first_occurrence_only :
  Scraper.clean_value "Type" "Type: Undead Type" = "Undead"
  /\ Spec.clean_value_first "Type" "Type: Undead Type" = "Undead Type"
  /\ Scraper.clean_value "Type" "Type: Undead Type"
     <> Spec.clean_value_first "Type" "Type: Undead Type".
Proof. repeat split. vm_compute. discriminate. Qed.

(* ===================================================================== *)
(** * The alignment decomposers *)
(* ===================================================================== *)

Module AlignmentFacts.

Import Py Scraper.

Lemma canonical_true_neutral a :
  lower (strip a) = "true neutral" -> canonical_alignment a = "Neutral Neutral".
Proof.
  intros H. unfold canonical_alignment. rewrite H. reflexivity.
Qed.

Lemma canonical_other a :
  lower (strip a) <> "true neutral" -> canonical_alignment a = strip a.
Proof.
  intros H. unfold canonical_alignment.
  apply String.eqb_neq in H. now rewrite H.
Qed.

(** Both functions read the pieces of the canonical form, also for the
    empty value, whose only piece is the empty string. *)
Lemma lawfulness_of_pieces a :
  lawfulness_of a = nth 0 (split " "%char (canonical_alignment a)) "".
Proof.
  unfold lawfulness_of. destruct a as [|c a]; [reflexivity|].
  cbn [truthy].
  destruct (split " "%char (canonical_alignment (String c a))) as [|t0 [|t1 r]];
    reflexivity.
Qed.

Lemma goodness_of_pieces a :
  goodness_of a
  = match split " "%char (canonical_alignment a) with
    | [t] => t
    | pieces => nth 1 pieces ""
    end.
Proof.
  unfold goodness_of. destruct a as [|c a]; [reflexivity|].
  cbn [truthy].
  destruct (split " "%char (canonical_alignment (String c a))) as [|t0 [|t1 r]];
    reflexivity.
Qed.

End AlignmentFacts.

(** C4. [get_lawfulness] and [get_goodness] work position by position:
    the output has the length of the input and its [i]-th element is
    computed from the [i]-th input alone; the empty value gives the empty
    string. A value that, trimmed and lowercased, is "true neutral" gives
    "Neutral" on both axes. For any other value, cut at single spaces
    after trimming: a single piece is the result on both axes; with two
    or more pieces the first is the lawfulness and the second the
    goodness, whatever follows. The two lists of the example come out as
    stated. *)
Theorem alignment_decomposers_elementwise (alignments : list string) :
  (List.length (Scraper.get_lawfulness alignments) = List.length alignments
   /\ List.length (Scraper.get_goodness alignments) = List.length alignments)
  /\ (forall i,
        nth_error (Scraper.get_lawfulness alignments) i
        = option_map Scraper.lawfulness_of (nth_error alignments i)
        /\ nth_error (Scraper.get_goodness alignments) i
           = option_map Scraper.goodness_of (nth_error alignments i))
  /\ (Scraper.lawfulness_of "" = "" /\ Scraper.goodness_of "" = "")
  /\ (forall a,
        Py.lower (Py.strip a) = "true neutral" ->
        Scraper.lawfulness_of a = "Neutral" /\ Scraper.goodness_of a = "Neutral")
  /\ (forall a t,
        Py.lower (Py.strip a) <> "true neutral" ->
        Py.split " "%char (Py.strip a) = [t] ->
        Scraper.lawfulness_of a = t /\ Scraper.goodness_of a = t)
  /\ (forall a t0 t1 rest,
        Py.lower (Py.strip a) <> "true neutral" ->
        Py.split " "%char (Py.strip a) = t0 :: t1 :: rest ->
        Scraper.lawfulness_of a = t0 /\ Scraper.goodness_of a = t1)
  /\ Scraper.get_lawfulness ["Chaotic Evil"; "True Neutral"; ""; "Good"]
     = ["Chaotic"; "Neutral"; ""; "Good"]
  /\ Scraper.get_goodness ["Chaotic Evil"; "True Neutral"; ""; "Good"]
     = ["Evil"; "Neutral"; ""; "Good"].
Proof.
  split; [split; apply length_map|].
  split; [intros i; split; apply nth_error_map|].
  split; [split; reflexivity|].
  split.
  { intros a H.
    rewrite AlignmentFacts.lawfulness_of_pieces, AlignmentFacts.goodness_of_pieces.
    rewrite (AlignmentFacts.canonical_true_neutral a H). split; reflexivity. }
  split.
  { intros a t Hn Hs.
    rewrite AlignmentFacts.lawfulness_of_pieces, AlignmentFacts.goodness_of_pieces.
    rewrite (AlignmentFacts.canonical_other a Hn), Hs. split; reflexivity. }
  split.
  { intros a t0 t1 rest Hn Hs.
    rewrite AlignmentFacts.lawfulness_of_pieces, AlignmentFacts.goodness_of_pieces.
    rewrite (AlignmentFacts.canonical_other a Hn), Hs. split; reflexivity. }
  split; reflexivity.
Qed.

Lemma alignment_decomposers_elementwise_witness :
  (Py.lower (Py.strip " TRUE neutral ") = "true neutral"
   /\ Scraper.lawfulness_of " TRUE neutral " = "Neutral"
   /\ Scraper.goodness_of " TRUE neutral " = "Neutral")
  /\ (Py.lower (Py.strip "Good") <> "true neutral"
      /\ Py.split " "%char (Py.strip "Good") = ["Good"]
      /\ Scraper.lawfulness_of "Good" = "Good"
      /\ Scraper.goodness_of "Good" = "Good")
  /\ (Py.lower (Py.strip "Chaotic Evil Outsider") <> "true neutral"
      /\ Py.split " "%char (Py.strip "Chaotic Evil Outsider")
         = ["Chaotic"; "Evil"; "Outsider"]
      /\ Scraper.lawfulness_of "Chaotic Evil Outsider" = "Chaotic"
      /\ Scraper.goodness_of "Chaotic Evil Outsider" = "Evil").
Proof.
  destruct (alignment_decomposers_elementwise
              ["Chaotic Evil"; "True Neutral"; ""; "Good"])
    as (_ & _ & _ & Htn & Hone & Htwo & _).
  split; [|split].
  - split; [reflexivity|]. apply Htn. reflexivity.
  - split; [discriminate|]. split; [reflexivity|].
    apply Hone; [discriminate | reflexivity].
  - split; [discriminate|]. split; [reflexivity|].
    apply (Htwo _ _ _ ["Outsider"]); [discriminate | reflexivity].
Defined.

(* ===================================================================== *)
(** * The order of the rows *)
(* ===================================================================== *)

Module OrderFacts.

Lemma string_compare_refl s : String.compare s s = Eq.
Proof.
  assert (H := String.compare_antisym s s).
  destruct (String.compare s s); simpl in H; congruence.
Qed.

Lemma string_compare_trans a b c :
  String.compare a b = Lt -> String.compare b c = Lt -> String.compare a c = Lt.
Proof.
  intros H1 H2.
  apply OrderedTypeEx.String_as_OT.cmp_lt in H1, H2.
  apply OrderedTypeEx.String_as_OT.cmp_lt.
  exact (OrderedTypeEx.String_as_OT.lt_trans _ _ _ H1 H2).
Qed.

Lemma cell_compare_refl x : cell_compare x x = Eq.
Proof. destruct x; simpl; [apply string_compare_refl | reflexivity]. Qed.

Lemma cell_compare_eq x y : cell_compare x y = Eq -> x = y.
Proof.
  destruct x, y; simpl; try discriminate; [|reflexivity].
  intros H. apply String.compare_eq_iff in H. now subst.
Qed.

Lemma cell_compare_antisym x y : cell_compare x y = CompOpp (cell_compare y x).
Proof. destruct x, y; simpl; try reflexivity. apply String.compare_antisym. Qed.

Lemma cell_compare_trans x y z :
  cell_compare x y = Lt -> cell_compare y z = Lt -> cell_compare x z = Lt.
Proof.
  destruct x, y, z; simpl; try discriminate; try reflexivity.
  apply string_compare_trans.
Qed.

Lemma rows_compare_antisym labels r1 r2 :
  rows_compare labels r1 r2 = CompOpp (rows_compare labels r2 r1).
Proof.
  induction labels as [|c labels IH]; simpl; [reflexivity|].
  rewrite (cell_compare_antisym (dict_get c r1) (dict_get c r2)).
  destruct (cell_compare (dict_get c r2) (dict_get c r1)); simpl; auto.
Qed.

Lemma row_ltb_asym labels a b :
  row_ltb labels a b = true -> row_ltb labels b a = false.
Proof.
  unfold row_ltb. rewrite (rows_compare_antisym labels b a).
  destruct (rows_compare labels a b); simpl; congruence.
Qed.

Lemma row_ltb_negtrans labels a b c :
  row_ltb labels b a = false -> row_ltb labels c b = false ->
  row_ltb labels c a = false.
Proof.
  unfold row_ltb. induction labels as [|l labels IH]; simpl; [reflexivity|].
  destruct (cell_compare (dict_get l b) (dict_get l a)) eqn:Eba; try discriminate;
    destruct (cell_compare (dict_get l c) (dict_get l b)) eqn:Ecb; try discriminate.
  - apply cell_compare_eq in Eba, Ecb. rewrite Ecb, Eba, cell_compare_refl.
    exact IH.
  - apply cell_compare_eq in Eba. rewrite <- Eba, Ecb. reflexivity.
  - apply cell_compare_eq in Ecb. rewrite Ecb, Eba. reflexivity.
  - intros _ _.
    assert (Hab : cell_compare (dict_get l a) (dict_get l b) = Lt)
      by (rewrite cell_compare_antisym, Eba; reflexivity).
    assert (Hbc : cell_compare (dict_get l b) (dict_get l c) = Lt)
      by (rewrite cell_compare_antisym, Ecb; reflexivity).
    assert (Hac := cell_compare_trans _ _ _ Hab Hbc).
    rewrite cell_compare_antisym, Hac. reflexivity.
Qed.

(** "Not strictly after" on the four sort labels is the order of the
    specification. *)
Lemma not_after_in_order r1 r2 :
  row_ltb Scraper.sort_labels r2 r1 = false -> Spec.rows_in_order r1 r2.
Proof.
  unfold row_ltb. rewrite rows_compare_antisym.
  unfold Spec.rows_in_order, Spec.key_le, Spec.sort_key, Spec.cell_lt,
    Scraper.sort_labels.
  cbn [rows_compare].
  destruct (cell_compare (dict_get "Lawfulness" r1) (dict_get "Lawfulness" r2))
    eqn:E1; [|now left|discriminate].
  apply cell_compare_eq in E1. right. split; [exact E1|].
  destruct (cell_compare (dict_get "Goodness" r1) (dict_get "Goodness" r2))
    eqn:E2; [|now left|discriminate].
  apply cell_compare_eq in E2. right. split; [exact E2|].
  destruct (cell_compare (dict_get "Race" r1) (dict_get "Race" r2))
    eqn:E3; [|now left|discriminate].
  apply cell_compare_eq in E3. right. split; [exact E3|].
  destruct (cell_compare (dict_get "Name" r1) (dict_get "Name" r2))
    eqn:E4; [|now left|discriminate].
  apply cell_compare_eq in E4. now right.
Qed.

Lemma StronglySorted_impl {A : Type} (R1 R2 : A -> A -> Prop) l :
  (forall x y, R1 x y -> R2 x y) -> StronglySorted R1 l -> StronglySorted R2 l.
Proof.
  intros HR. induction 1 as [|x l Hs IH Hx]; constructor; [exact IH|].
  rewrite Forall_forall in *. auto.
Qed.

Lemma insert_by_length {T K : Type} (key : T -> K) ltb x l :
  List.length (insert_by key ltb x l) = S (List.length l).
Proof.
  induction l as [|y l IH]; simpl; [reflexivity|].
  destruct (ltb (key y) (key x)); simpl; congruence.
Qed.

Lemma sorted_by_length {T K : Type} (key : T -> K) ltb l :
  List.length (sorted_by key ltb l) = List.length l.
Proof.
  induction l as [|x l IH]; simpl; [reflexivity|].
  now rewrite insert_by_length, IH.
Qed.

(** Whatever frame [sort_values] returns has its rows in order, as many
    as before. *)
Lemma sort_values_in_order df df' :
  sort_values Scraper.sort_labels df = Ok df' ->
  Sorted Spec.rows_in_order (df_rows df')
  /\ List.length (df_rows df') = List.length (df_rows df).
Proof.
  unfold sort_values.
  destruct (missing_label df Scraper.sort_labels); [discriminate|].
  intros [= <-]. cbn [df_rows]. split; [|apply sorted_by_length].
  apply StronglySorted_Sorted.
  apply (StronglySorted_impl
           (ascending (fun r => r) (row_ltb Scraper.sort_labels))).
  - intros x y H. now apply not_after_in_order.
  - apply sorted_by_sorted;
      [apply row_ltb_asym | apply row_ltb_negtrans].
Qed.

End OrderFacts.

(* ===================================================================== *)
(** * The table of monsters *)
(* ===================================================================== *)

Module FrameFacts.

Import Py Scraper DictFacts.

Lemma add_labels_In l : forall acc k,
  In k (add_labels acc l) <-> In k acc \/ In k l.
Proof.
  unfold add_labels.
  induction l as [|x l IH]; intros acc k; simpl; [tauto|].
  rewrite IH.
  destruct (existsb (String.eqb x) acc) eqn:E.
  - apply existsb_eqb_In in E. intuition congruence.
  - rewrite in_app_iff. simpl. intuition congruence.
Qed.

Lemma frame_columns_from records : forall acc k,
  In k (fold_left (fun acc r => add_labels acc (dict_keys r)) records acc)
  <-> In k acc \/ exists r, In r records /\ In k (dict_keys r).
Proof.
  induction records as [|r records IH]; intros acc k; simpl.
  - split; [tauto | intros [H|(r & [] & _)]; exact H].
  - rewrite IH, add_labels_In. split.
    + intros [[H|H]|(r' & Hr & Hk)]; [now left | right | right].
      * exists r. split; [now left | exact H].
      * exists r'. split; [now right | exact Hk].
    + intros [H|(r' & [<-|Hr] & Hk)]; [now left; left | now left; right |].
      right. now exists r'.
Qed.

Lemma has_column_In df c : has_column df c = true <-> In c (df_columns df).
Proof. apply existsb_eqb_In. Qed.

Lemma column_values_length c rows : forall vs,
  column_values c rows = Ok vs -> List.length vs = List.length rows.
Proof.
  induction rows as [|r rows IH]; simpl; intros vs.
  - now intros [= <-].
  - destruct (dict_get c r); [|discriminate].
    destruct (column_values c rows) as [vs'|]; [|discriminate].
    intros [= <-]. simpl. f_equal. now apply IH.
Qed.

Lemma column_values_ok c rows :
  (forall r, In r rows -> In c (dict_keys r)) ->
  exists vs, column_values c rows = Ok vs.
Proof.
  induction rows as [|r rows IH]; intros H; simpl; [now exists []|].
  destruct (proj1 (dict_get_In_keys c r) (H r (or_introl eq_refl))) as [v ->].
  destruct IH as [vs ->]; [intros r' Hr'; apply H; now right|].
  now exists (v :: vs).
Qed.

Lemma set_column_rows c values df :
  List.length values = List.length (df_rows df) ->
  List.length (df_rows (set_column c values df)) = List.length (df_rows df).
Proof.
  intros H. unfold set_column. cbn [df_rows].
  rewrite length_map, length_combine. lia.
Qed.

Lemma derive_axes_rows df0 df :
  derive_axes df0 = Ok df ->
  List.length (df_rows df) = List.length (df_rows df0).
Proof.
  unfold derive_axes, bind.
  destruct (has_column df0 "Alignment"); [|now intros [= <-]].
  destruct (column_values "Alignment" (df_rows df0)) as [vs|] eqn:E;
    [|discriminate].
  apply column_values_length in E.
  intros [= <-]. unfold drop_column. cbn [df_rows]. rewrite length_map.
  rewrite set_column_rows.
  - rewrite set_column_rows; [reflexivity|].
    unfold get_lawfulness. now rewrite length_map.
  - rewrite set_column_rows.
    + unfold get_goodness. now rewrite length_map.
    + unfold get_lawfulness. now rewrite length_map.
Qed.

(** A table that is returned is in order and has one row per monster. *)
Lemma monster_table_in_order monster_info df :
  monster_table monster_info = Ok df ->
  Sorted Spec.rows_in_order (df_rows df)
  /\ List.length (df_rows df) = List.length monster_info.
Proof.
  unfold monster_table, bind.
  destruct (derive_axes (frame_of_records monster_info)) as [df0|] eqn:E;
    [|discriminate].
  intros H. apply OrderFacts.sort_values_in_order in H.
  destruct H as [Hs Hl]. split; [exact Hs|].
  rewrite Hl. now apply derive_axes_rows in E.
Qed.

(** With no record at all the frame has no column and the sort fails on
    its first label. *)
Lemma monster_table_of_nothing :
  monster_table [] = Raise (KeyError "Lawfulness").
Proof. reflexivity. Qed.

(** Without an "Alignment" column nothing is derived, and without a
    "Lawfulness" column the sort has no first key. *)
Lemma monster_table_without_alignment monster_info :
  has_column (frame_of_records monster_info) "Alignment" = false ->
  has_column (frame_of_records monster_info) "Lawfulness" = false ->
  monster_table monster_info = Raise (KeyError "Lawfulness").
Proof.
  intros Ha Hl. unfold monster_table, derive_axes, bind. rewrite Ha.
  unfold sort_values, missing_label, sort_labels. cbn [find]. now rewrite Hl.
Qed.

(** With "Alignment", "Race" and "Name" in every record, and at least
    one record, the table is built. *)
Lemma monster_table_ok monster_info :
  monster_info <> [] ->
  (forall r, In r monster_info ->
     In "Name" (dict_keys r) /\ In "Race" (dict_keys r)
     /\ In "Alignment" (dict_keys r)) ->
  exists df, monster_table monster_info = Ok df.
Proof.
  intros Hne Hkeys.
  destruct monster_info as [|r0 rest]; [congruence|].
  assert (Hcol : forall c, (exists r, In r (r0 :: rest) /\ In c (dict_keys r)) ->
                           In c (df_columns (frame_of_records (r0 :: rest)))).
  { intros c H. apply frame_columns_from. now right. }
  destruct (Hkeys r0 (or_introl eq_refl)) as (Hn & Hr & Ha).
  unfold monster_table, derive_axes, bind.
  assert (Hal : has_column (frame_of_records (r0 :: rest)) "Alignment" = true).
  { apply has_column_In, Hcol. exists r0. split; [now left | exact Ha]. }
  rewrite Hal.
  destruct (column_values_ok "Alignment" (r0 :: rest)) as [vs Hvs].
  { intros r Hin. now apply Hkeys. }
  cbn [frame_of_records df_rows] in *. rewrite Hvs.
  unfold sort_values.
  match goal with
  | |- context [missing_label ?d _] => set (df := d)
  end.
  assert (Hin : forall c, c <> "Alignment" ->
            (c = "Lawfulness" \/ c = "Goodness"
             \/ In c (df_columns (frame_of_records (r0 :: rest)))) ->
            has_column df c = true).
  { intros c Hc H. apply has_column_In. unfold df, drop_column, set_column.
    cbn [df_columns]. apply filter_In. split.
    - rewrite !add_labels_In. simpl In. intuition congruence.
    - apply negb_true_iff. now apply String.eqb_neq. }
  unfold missing_label, sort_labels. cbn [find].
  rewrite !Hin; try discriminate.
  - cbn [negb]. eexists. reflexivity.
  - right. right. apply Hcol. exists r0. split; [now left | exact Hn].
  - right. right. apply Hcol. exists r0. split; [now left | exact Hr].
  - tauto.
  - tauto.
Qed.

Lemma dict_merge_keys d2 : forall d1 k,
  In k (dict_keys (dict_merge d1 d2))
  <-> In k (dict_keys d1) \/ In k (dict_keys d2).
Proof.
  unfold dict_merge.
  induction d2 as [|[k2 v2] d2 IH]; intros d1 k; simpl; [tauto|].
  rewrite IH, dict_keys_set_In. intuition congruence.
Qed.

Lemma monster_info_keys keywords text k :
  In k (dict_keys (monster_info_of_text keywords text)) <-> In k keywords.
Proof.
  unfold monster_info_of_text. rewrite ExtractorFacts.clean_info_keys.
  destruct (ExtractorFacts.scan_from (filtered_lines keywords text) keywords [])
    as (_ & Hin & _).
  unfold scan_keywords. rewrite Hin. simpl. tauto.
Qed.

(** When every page can be read, one record per monster is collected,
    with the key "Name" and every configured keyword. *)
Lemma collect_monster_info_ok configs wiki :
  (forall url, exists text, content_text wiki url = Ok text) ->
  forall monster_urls,
  exists infos,
    collect_monster_info configs wiki monster_urls = Ok infos
    /\ List.length infos = List.length monster_urls
    /\ forall r, In r infos ->
         forall k, k = "Name" \/ In k (columns configs) -> In k (dict_keys r).
Proof.
  intros Hread. induction monster_urls as [|[key value] rest IH].
  - exists []. repeat split. intros r [].
  - destruct IH as (infos & Hc & Hlen & Hk).
    destruct (Hread value) as [text Ht].
    eexists. cbn [collect_monster_info]. unfold get_monster_info.
    rewrite Ht. cbn [bind]. rewrite Hc. cbn [bind].
    split; [reflexivity|]. split; [simpl; now rewrite Hlen|].
    intros r [<-|Hr] k Hkk; [|now apply (Hk r)].
    apply dict_merge_keys. rewrite monster_info_keys. simpl.
    destruct Hkk as [->|Hkk]; tauto.
Qed.

End FrameFacts.

Module PipelineFacts.

Import Py Scraper DictFacts FrameFacts.

(** The keys of a collected record are "Name" and configured keywords,
    nothing else. *)
Lemma collect_monster_info_keys configs wiki :
  forall monster_urls infos,
    collect_monster_info configs wiki monster_urls = Ok infos ->
    forall r, In r infos ->
      forall k, In k (dict_keys r) -> k = "Name" \/ In k (columns configs).
Proof.
  induction monster_urls as [|[key value] rest IH]; intros infos.
  - intros [= <-] r [].
  - cbn [collect_monster_info]. unfold get_monster_info, bind.
    destruct (content_text wiki value) as [text|]; [|discriminate].
    destruct (collect_monster_info configs wiki rest) as [infos'|];
      [|discriminate].
    intros [= <-] r [<-|Hr] k Hk; [|now apply (IH infos' eq_refl r)].
    apply dict_merge_keys in Hk. rewrite monster_info_keys in Hk.
    simpl in Hk. intuition congruence.
Qed.

(** The table is what [monster_table] makes of the collected records. *)
Lemma get_monsters_in_quest_table configs wiki quest_name df :
  get_monsters_in_quest configs wiki quest_name = Ok df ->
  exists monster_urls monster_info,
    collect_monster_info configs wiki monster_urls = Ok monster_info
    /\ monster_table monster_info = Ok df.
Proof.
  unfold get_monsters_in_quest, bind.
  destruct (get_quest_urls wiki) as [quest_urls|]; [|discriminate].
  destruct (get_closest_matching_quest quest_name (map PyStr (dict_keys quest_urls)))
    as [closest|]; [|discriminate].
  destruct (dict_item closest quest_urls) as [url|]; [|discriminate].
  destruct (get_monster_urls wiki url) as [monster_urls|]; [|discriminate].
  destruct (collect_monster_info configs wiki monster_urls) as [infos|] eqn:E;
    [|discriminate].
  intros H. now exists monster_urls, infos.
Qed.

(** With neither "Alignment" nor "Lawfulness" among the configured
    keywords no table is ever returned. *)
Lemma no_table_without_alignment configs wiki quest_name :
  ~ In "Alignment" (columns configs) -> ~ In "Lawfulness" (columns configs) ->
  forall df, get_monsters_in_quest configs wiki quest_name <> Ok df.
Proof.
  intros Ha Hl df H.
  apply get_monsters_in_quest_table in H.
  destruct H as (monster_urls & infos & Hc & Ht).
  assert (Hno : forall c, c <> "Name" -> ~ In c (columns configs) ->
                  has_column (frame_of_records infos) c = false).
  { intros c Hc1 Hc2. apply not_true_iff_false. intros Hin.
    apply has_column_In in Hin. apply frame_columns_from in Hin.
    destruct Hin as [[]|(r & Hr & Hk)].
    destruct (collect_monster_info_keys _ _ _ _ Hc r Hr c Hk); contradiction. }
  rewrite monster_table_without_alignment in Ht.
  - discriminate.
  - apply Hno; [discriminate | exact Ha].
  - apply Hno; [discriminate | exact Hl].
Qed.

(** When the wiki answers every request with at least one quest and one
    monster, and the keywords include "Alignment" and "Race", a table is
    returned. *)
Lemma get_monsters_in_quest_ok configs wiki quest_name quest_urls :
  get_quest_urls wiki = Ok quest_urls -> quest_urls <> [] ->
  (forall url, exists monster_urls,
      get_monster_urls wiki url = Ok monster_urls /\ monster_urls <> []) ->
  (forall url, exists text, content_text wiki url = Ok text) ->
  In "Alignment" (columns configs) -> In "Race" (columns configs) ->
  exists df, get_monsters_in_quest configs wiki quest_name = Ok df.
Proof.
  intros Hq Hne Hm Ht Ha Hr.
  unfold get_monsters_in_quest. rewrite Hq. cbn [bind].
  destruct (MatcherFacts.closest_match_spec quest_name (dict_keys quest_urls))
    as (_ & closest & _ & _ & Hc & Hin & _).
  { destruct quest_urls; [congruence | discriminate]. }
  rewrite Hc. cbn [bind].
  apply dict_get_In_keys in Hin. destruct Hin as [url Hurl].
  unfold dict_item. rewrite Hurl. cbn [bind].
  destruct (Hm url) as (monster_urls & -> & Hmne). cbn [bind].
  destruct (collect_monster_info_ok configs wiki Ht monster_urls)
    as (infos & -> & Hlen & Hkeys).
  cbn [bind]. apply monster_table_ok.
  - destruct infos; [|discriminate]. destruct monster_urls; [congruence|discriminate].
  - intros r Hrin. repeat split; apply (Hkeys r Hrin); tauto.
Qed.

End PipelineFacts.

(** C5. A table returned by [get_monsters_in_quest] has every adjacent
    pair of rows non-decreasing under the tuple (Lawfulness, Goodness,
    Race, Name), compared lexicographically, each cell by code points;
    so has any table built from assembled rows, which also has one row
    per monster. A table is indeed returned when the wiki answers every
    request with at least one quest and one monster and the keywords
    include "Alignment" and "Race". *)
Theorem output_table_is_sorted
    (configs : Scraper.Configs) (wiki : Scraper.Wiki) (quest_name : string) :
  (forall df,
      Scraper.get_monsters_in_quest configs wiki quest_name = Ok df ->
      Sorted Spec.rows_in_order (df_rows df))
  /\ (forall monster_info df,
        Scraper.monster_table monster_info = Ok df ->
        Sorted Spec.rows_in_order (df_rows df)
        /\ List.length (df_rows df) = List.length monster_info)
  /\ (forall quest_urls,
        Scraper.get_quest_urls wiki = Ok quest_urls -> quest_urls <> [] ->
        (forall url, exists monster_urls,
            Scraper.get_monster_urls wiki url = Ok monster_urls
            /\ monster_urls <> []) ->
        (forall url, exists text, Scraper.content_text wiki url = Ok text) ->
        In "Alignment" (Scraper.columns configs) ->
        In "Race" (Scraper.columns configs) ->
        exists df,
          Scraper.get_monsters_in_quest configs wiki quest_name = Ok df
          /\ Sorted Spec.rows_in_order (df_rows df)).
Proof.
  assert (Hsorted : forall df,
             Scraper.get_monsters_in_quest configs wiki quest_name = Ok df ->
             Sorted Spec.rows_in_order (df_rows df)).
  { intros df H. apply PipelineFacts.get_monsters_in_quest_table in H.
    destruct H as (monster_urls & infos & _ & Ht).
    now apply FrameFacts.monster_table_in_order in Ht. }
  split; [exact Hsorted|]. split.
  - intros monster_info df. apply FrameFacts.monster_table_in_order.
  - intros quest_urls Hq Hne Hm Ht Ha Hr.
    destruct (PipelineFacts.get_monsters_in_quest_ok configs wiki quest_name
                quest_urls Hq Hne Hm Ht Ha Hr) as [df Hdf].
    exists df. split; [exact Hdf | now apply Hsorted].
Qed.

Lemma output_table_is_sorted_witness :
  (Scraper.get_monsters_in_quest Example.configs Example.full_wiki "the pit"
   = Ok {| df_columns := ["Name"; "Race"; "Type"; "Lawfulness"; "Goodness"];
           df_rows :=
             [[("Name", "Goblin"); ("Race", "Goblinoid"); ("Type", "Humanoid");
               ("Lawfulness", "Chaotic"); ("Goodness", "Evil")];
              [("Name", "Kobold"); ("Race", "Reptilian"); ("Type", "Humanoid");
               ("Lawfulness", "Lawful"); ("Goodness", "Evil")]] |})
  /\ Sorted Spec.rows_in_order
       [[("Name", "Goblin"); ("Race", "Goblinoid"); ("Type", "Humanoid");
         ("Lawfulness", "Chaotic"); ("Goodness", "Evil")];
        [("Name", "Kobold"); ("Race", "Reptilian"); ("Type", "Humanoid");
         ("Lawfulness", "Lawful"); ("Goodness", "Evil")]]
  /\ exists df,
       Scraper.get_monsters_in_quest Example.configs Example.full_wiki "the pit"
       = Ok df
       /\ Sorted Spec.rows_in_order (df_rows df).
Proof.
  destruct (output_table_is_sorted Example.configs Example.full_wiki "the pit")
    as (Hs & _ & Hex).
  assert (E : Scraper.get_monsters_in_quest Example.configs Example.full_wiki
                "the pit"
              = Ok {| df_columns := ["Name"; "Race"; "Type"; "Lawfulness"; "Goodness"];
                      df_rows :=
                        [[("Name", "Goblin"); ("Race", "Goblinoid");
                          ("Type", "Humanoid");
                          ("Lawfulness", "Chaotic"); ("Goodness", "Evil")];
                         [("Name", "Kobold"); ("Race", "Reptilian");
                          ("Type", "Humanoid");
                          ("Lawfulness", "Lawful"); ("Goodness", "Evil")]] |})
    by (vm_compute; reflexivity).
  split; [exact E|]. split; [exact (Hs _ E)|].
  apply (Hex [("The Pit", "/page/The_Pit")]).
  - reflexivity.
  - discriminate.
  - intros url. eexists. split; [reflexivity | discriminate].
  - intros url. simpl. destruct (String.eqb url "/page/Goblin"); eexists; reflexivity.
  - simpl. tauto.
  - simpl. tauto.
Defined.

(** C6. With the keywords "Race" and "Type" only, the table has no
    "Alignment" column, the derivation is skipped, and the sort then asks
    for the column "Lawfulness", which does not exist: the call raises
    [KeyError] instead of returning a table. Without "Race" it raises on
    that label in the same way. *)
Theorem missing_alignment_or_race_raises :
  Scraper.get_monsters_in_quest Example.configs_without_alignment
    Example.wiki "the pit" = Raise (KeyError "Lawfulness")
  /\ Scraper.get_monsters_in_quest Example.configs_without_race
       Example.wiki "the pit" = Raise (KeyError "Race").
Proof. split; vm_compute; reflexivity. Qed.

(* ===================================================================== *)
(** * The console loop *)
(* ===================================================================== *)

Module LoopFacts.

Import Py Scraper.

(** After queries that all resolve, the loop goes on with the rest of
    the input, one table printed per query. *)
Lemma main_loop_after_successes configs wiki rest :
  forall before,
    Forall (resolves configs wiki) before ->
    exists printed,
      List.length printed = List.length before
      /\ main_loop (Ok configs) wiki (before ++ rest)
         = (printed ++ fst (main_loop (Ok configs) wiki rest),
            snd (main_loop (Ok configs) wiki rest)).
Proof.
  induction 1 as [|line before [Hq [df Hdf]] _ IH].
  - exists []. split; [reflexivity|]. simpl app.
    now destruct (main_loop (Ok configs) wiki rest).
  - destruct IH as (printed & Hlen & Hloop).
    exists (df :: printed). split; [simpl; now rewrite Hlen|].
    change ((line :: before) ++ rest) with (line :: (before ++ rest)).
    cbn [main_loop]. rewrite Hq, Hdf, Hloop. reflexivity.
Qed.

End LoopFacts.

(** C8, as the code has it. Nothing in [main_loop] catches an exception
    raised while a query is resolved: after any number of queries that
    resolve, each of which prints its table and returns to the prompt,
    the first query whose resolution raises ends the loop with that
    exception, and the lines typed after it are never read. A quit token
    at that place ends the loop by [break] instead, and so does a query
    typed when [configs.yaml] is not found. *)
Theorem main_loop_ends_at_first_failing_query
    (configs : Scraper.Configs) (wiki : Scraper.Wiki)
    (before : list string) (line : string) (after : list string) :
  Forall (Scraper.resolves configs wiki) before ->
  exists printed,
    List.length printed = List.length before
    /\ (forall e,
          Scraper.is_quit (Scraper.normalized line) = false ->
          Scraper.get_monsters_in_quest configs wiki (Scraper.normalized line)
          = Raise e ->
          Scraper.main_loop (Ok configs) wiki (before ++ line :: after)
          = (printed, Scraper.Uncaught e))
    /\ (Scraper.is_quit (Scraper.normalized line) = true ->
        Scraper.main_loop (Ok configs) wiki (before ++ line :: after)
        = (printed, Scraper.QuitToken))
    /\ (Scraper.is_quit (Scraper.normalized line) = false ->
        Scraper.main_loop (Raise FileNotFoundError) wiki (line :: after)
        = ([], Scraper.ConfigsNotFound)).
Proof.
  intros Hbefore.
  destruct (LoopFacts.main_loop_after_successes configs wiki (line :: after)
              before Hbefore) as (printed & Hlen & Hloop).
  exists printed. split; [exact Hlen|]. split; [|split].
  - intros e Hq He. rewrite Hloop. cbn [Scraper.main_loop].
    rewrite Hq, He. simpl. now rewrite app_nil_r.
  - intros Hq. rewrite Hloop. cbn [Scraper.main_loop].
    rewrite Hq. simpl. now rewrite app_nil_r.
  - intros Hq. cbn [Scraper.main_loop]. now rewrite Hq.
Qed.

Lemma main_loop_ends_at_first_failing_query_witness :
  Forall (Scraper.resolves Example.configs Example.wiki) ["  The Pit "]
  /\ Scraper.is_quit (Scraper.normalized "shroud") = false
  /\ Scraper.get_monsters_in_quest Example.configs Example.wiki
       (Scraper.normalized "shroud") = Raise RequestException
  /\ exists printed,
       List.length printed = 1
       /\ Scraper.main_loop (Ok Example.configs) Example.wiki
            (["  The Pit "] ++ "shroud" :: ["the pit"; "quit"])
          = (printed, Scraper.Uncaught RequestException).
Proof.
  assert (H : Forall (Scraper.resolves Example.configs Example.wiki) ["  The Pit "]).
  { constructor; [|constructor]. split; [reflexivity|].
    eexists. vm_compute. reflexivity. }
  assert (Hq : Scraper.is_quit (Scraper.normalized "shroud") = false)
    by reflexivity.
  assert (He : Scraper.get_monsters_in_quest Example.configs Example.wiki
                 (Scraper.normalized "shroud") = Raise RequestException)
    by (vm_compute; reflexivity).
  split; [exact H|]. split; [exact Hq|]. split; [exact He|].
  destruct (main_loop_ends_at_first_failing_query Example.configs Example.wiki
              ["  The Pit "] "shroud" ["the pit"; "quit"] H)
    as (printed & Hlen & Hfail & _ & _).
  exists printed. split; [exact Hlen|]. exact (Hfail _ Hq He).
Defined.

(** C8 as stated fails: the second query cannot fetch its quest page,
    and the loop ends there with the uncaught exception, before the third
    query and the quit token are read; it ends neither on a quit token
    nor on a missing configuration file. *)
Lemma main_loop_ended_by_query_failure :
  let run := Scraper.main_loop (Ok Example.configs) Example.wiki
               ["the pit"; "shroud"; "the pit"; "quit"] in
  snd run = Scraper.Uncaught RequestException
  /\ List.length (fst run) = 1
  /\ snd run <> Scraper.QuitToken
  /\ snd run <> Scraper.ConfigsNotFound.
Proof.
  assert (E : snd (Scraper.main_loop (Ok Example.configs) Example.wiki
                     ["the pit"; "shroud"; "the pit"; "quit"])
              = Scraper.Uncaught RequestException)
    by (vm_compute; reflexivity).
  cbv zeta. rewrite E. repeat split; discriminate.
Qed.

(* ===================================================================== *)
(** * More about the Python string methods *)
(* ===================================================================== *)

Module PyFacts.

Import Py More.

Lemma rstrip_keeps_head c s :
  isspace c = false -> rstrip (String c s) = String c (rstrip s).
Proof. intros H. simpl. rewrite H. now destruct (rstrip s). Qed.

Lemma rstrip_idempotent s : rstrip (rstrip s) = rstrip s.
Proof.
  induction s as [|c s IH]; [reflexivity|].
  cbn [rstrip]. destruct (rstrip s) as [|c' r] eqn:E.
  - destruct (isspace c) eqn:Ec; [reflexivity|]. simpl. now rewrite Ec.
  - change (rstrip (String c (String c' r)))
      with (match rstrip (String c' r) with
            | EmptyString => if isspace c then EmptyString else String c EmptyString
            | r0 => String c r0
            end).
    now rewrite IH.
Qed.

Lemma lstrip_head s :
  lstrip s = EmptyString
  \/ exists c s', lstrip s = String c s' /\ isspace c = false.
Proof.
  induction s as [|c s IH]; [now left|].
  simpl. destruct (isspace c) eqn:E; [exact IH|].
  right. now exists c, s.
Qed.

(** [strip] changes nothing in a string it has produced. *)
Lemma strip_idempotent s : strip (strip s) = strip s.
Proof.
  unfold strip. destruct (lstrip_head s) as [->|(c & s' & -> & Hc)];
    [reflexivity|].
  rewrite (rstrip_keeps_head c s' Hc). cbn [lstrip]. rewrite Hc.
  rewrite <- (rstrip_keeps_head c s' Hc). apply rstrip_idempotent.
Qed.

Lemma lstrip_chars c s : In c (chars (lstrip s)) -> In c (chars s).
Proof.
  unfold chars. induction s as [|x s IH]; simpl; [tauto|].
  destruct (isspace x); simpl; auto.
Qed.

Lemma rstrip_chars c s : In c (chars (rstrip s)) -> In c (chars s).
Proof.
  unfold chars. induction s as [|x s IH]; simpl; [tauto|].
  destruct (rstrip s) as [|y r].
  - destruct (isspace x); simpl; tauto.
  - simpl in *. tauto.
Qed.

Lemma strip_chars c s : In c (chars (strip s)) -> In c (chars s).
Proof. intros H. now apply lstrip_chars, rstrip_chars. Qed.

Lemma chars_append s t : chars (String.append s t) = chars s ++ chars t.
Proof. unfold chars. induction s as [|c s IH]; simpl; congruence. Qed.

(** Removing a text adds no character. *)
Lemma replace_scan_chars old c s : forall skip,
  In c (chars (replace_scan old "" s skip)) -> In c (chars s).
Proof.
  unfold chars.
  induction s as [|x s IH]; intros skip; [simpl; tauto|].
  cbn [replace_scan]. destruct skip as [|n].
  - destruct (String.prefix old (String x s)).
    + cbn [String.append list_ascii_of_string]. intros H. right. eauto.
    + cbn [list_ascii_of_string]. intros [H|H]; [now left | right; eauto].
  - intros H. right. eauto.
Qed.

Lemma replace_empty_nothing s : replace_empty "" s = s.
Proof. induction s as [|c s IH]; simpl; congruence. Qed.

Lemma replace_chars old c s : In c (chars (replace s old "")) -> In c (chars s).
Proof.
  destruct old as [|c0 old0]; simpl.
  - now rewrite replace_empty_nothing.
  - apply replace_scan_chars.
Qed.

(** Removing a one-character text leaves no such character. *)
Lemma replace_char_gone c s : ~ In c (chars (replace s (String c "") "")).
Proof.
  unfold replace, chars. induction s as [|x s IH]; simpl; [tauto|].
  assert (E : String.prefix "" s = true) by now destruct s.
  rewrite E. destruct (ascii_dec c x) as [->|Hne].
  - simpl. exact IH.
  - simpl. intros [H|H]; [congruence | now apply IH].
Qed.

(** The pieces of [split] hold no separator, and joining them with the
    separator gives the string back. *)
Lemma split_not_nil sep s : split sep s <> [].
Proof.
  destruct s as [|c s]; simpl; [discriminate|].
  destruct (Ascii.eqb c sep); [discriminate|].
  destruct (split sep s); discriminate.
Qed.

Lemma split_no_sep sep s : forall p, In p (split sep s) -> ~ In sep (chars p).
Proof.
  unfold chars. induction s as [|c s IH]; simpl.
  - intros p [<-|[]]. simpl. tauto.
  - destruct (Ascii.eqb_spec c sep) as [->|Hne].
    + intros p [<-|Hp]; [simpl; tauto | now apply IH].
    + destruct (split sep s) as [|h t] eqn:E.
      * intros p [<-|[]]. simpl. intros [H|[]]. congruence.
      * intros p [<-|Hp].
        -- simpl. intros [H|H]; [congruence|].
           now apply (IH h (or_introl eq_refl)).
        -- apply IH. now right.
Qed.

Lemma join_split sep s : String.concat (String sep "") (split sep s) = s.
Proof.
  induction s as [|c s IH]; [reflexivity|].
  simpl. destruct (Ascii.eqb_spec c sep) as [->|Hne].
  - assert (Hn := split_not_nil sep s).
    destruct (split sep s) as [|h t]; [congruence|].
    simpl in *. now rewrite IH.
  - assert (Hn := split_not_nil sep s).
    destruct (split sep s) as [|h t]; [congruence|].
    destruct t as [|h' t']; simpl in *; now rewrite <- IH.
Qed.

Lemma split_app_sep sep t r :
  ~ In sep (chars t) ->
  split sep (String.append t (String sep r)) = t :: split sep r.
Proof.
  unfold chars. induction t as [|c t IH]; intros H; simpl.
  - now rewrite Ascii.eqb_refl.
  - destruct (Ascii.eqb_spec c sep) as [->|Hne]; [simpl in H; tauto|].
    rewrite IH by (simpl in H; tauto). reflexivity.
Qed.

Lemma prefix_trans p q s :
  String.prefix p q = true -> String.prefix q s = true -> String.prefix p s = true.
Proof.
  revert q s. induction p as [|a p IH]; intros q s; [now destruct s|].
  destruct q as [|b q]; [now destruct p|].
  destruct s as [|c s]; [discriminate|].
  simpl. destruct (ascii_dec a b) as [->|]; [|discriminate].
  destruct (ascii_dec b c) as [->|]; [|discriminate].
  apply IH.
Qed.

Lemma truthy_not_empty s : truthy s = true <-> s <> "".
Proof. destruct s; simpl; split; congruence. Qed.

End PyFacts.

(* ===================================================================== *)
(** * More about the record extractor *)
(* ===================================================================== *)

Module ExtractorMore.

Import Py Scraper More DictFacts.

Lemma filtered_lines_nonblank keywords text :
  filtered_lines keywords text
  = filter (fun line => startswith_any line keywords) (nonblank_lines text).
Proof. reflexivity. Qed.

(** A test that implies the filter's test finds the same first element
    before and after filtering. *)
Lemma find_filter {A : Type} (f g : A -> bool) l :
  (forall x, f x = true -> g x = true) -> find f (filter g l) = find f l.
Proof.
  intros H. induction l as [|x l IH]; [reflexivity|].
  simpl. destruct (g x) eqn:Eg; simpl.
  - now rewrite IH.
  - destruct (f x) eqn:Ef; [|exact IH].
    apply H in Ef. congruence.
Qed.

Lemma add_labels_fresh l : forall acc,
  NoDup (acc ++ l) -> add_labels acc l = acc ++ l.
Proof.
  unfold add_labels.
  induction l as [|k l IH]; intros acc H; simpl; [now rewrite app_nil_r|].
  destruct (existsb (String.eqb k) acc) eqn:E.
  - apply existsb_eqb_In in E. apply NoDup_remove_2 in H.
    exfalso. apply H. apply in_or_app. now left.
  - rewrite IH; rewrite <- app_assoc; [reflexivity | exact H].
Qed.

Lemma scan_keys lines keywords : forall monster_info,
  dict_keys (fold_left (fun info keyword =>
                          dict_set keyword (raw_value lines keyword) info)
                       keywords monster_info)
  = add_labels (dict_keys monster_info) keywords.
Proof.
  unfold add_labels.
  induction keywords as [|k keywords IH]; intros monster_info; [reflexivity|].
  simpl. rewrite IH, dict_keys_set. reflexivity.
Qed.

Lemma monster_info_keys_eq keywords text :
  dict_keys (monster_info_of_text keywords text) = add_labels [] keywords.
Proof.
  unfold monster_info_of_text. rewrite ExtractorFacts.clean_info_keys.
  apply scan_keys.
Qed.

End ExtractorMore.

(** X1. Every line that [get_monster_info] keeps for its keyword scan is
    non-empty, is already trimmed, holds no newline, and starts with one
    of the configured keywords. *)
Theorem kept_lines_are_trimmed_keyword_lines
    (keywords : list string) (text line : string) :
  In line (Scraper.filtered_lines keywords text) ->
  line <> ""
  /\ Py.strip line = line
  /\ ~ In Py.newline (More.chars line)
  /\ exists keyword, In keyword keywords /\ Py.startswith line keyword = true.
Proof.
  rewrite ExtractorMore.filtered_lines_nonblank.
  intros H. apply filter_In in H. destruct H as [H Hk].
  unfold More.nonblank_lines in H. apply filter_In in H.
  destruct H as [H Ht]. apply in_map_iff in H.
  destruct H as (piece & <- & Hp).
  split; [now apply PyFacts.truthy_not_empty|].
  split; [apply PyFacts.strip_idempotent|].
  split.
  - intros Hin. apply PyFacts.strip_chars in Hin.
    exact (PyFacts.split_no_sep _ _ _ Hp Hin).
  - unfold Py.startswith_any in Hk. apply existsb_exists in Hk.
    destruct Hk as (k & Hk1 & Hk2). now exists k.
Qed.

Lemma kept_lines_are_trimmed_keyword_lines_witness :
  In "Race: Goblinoid (List)"
     (Scraper.filtered_lines ["Race"; "Type"] Example.goblin_page)
  /\ Py.strip "Race: Goblinoid (List)" = "Race: Goblinoid (List)".
Proof.
  assert (H : In "Race: Goblinoid (List)"
                (Scraper.filtered_lines ["Race"; "Type"] Example.goblin_page))
    by (vm_compute; tauto).
  split; [exact H|].
  exact (proj1 (proj2 (kept_lines_are_trimmed_keyword_lines _ _ _ H))).
Defined.

(** X2. The keyword pre-filter never changes what a configured keyword
    selects: the first kept line that starts with the keyword is the
    first non-blank trimmed line of the text that starts with it. *)
Theorem prefilter_keeps_first_match
    (keywords : list string) (text keyword : string) :
  In keyword keywords ->
  Scraper.raw_value (Scraper.filtered_lines keywords text) keyword
  = Scraper.raw_value (More.nonblank_lines text) keyword.
Proof.
  intros Hk. unfold Scraper.raw_value.
  rewrite ExtractorMore.filtered_lines_nonblank, ExtractorMore.find_filter;
    [reflexivity|].
  intros line Hs. unfold Py.startswith_any. apply existsb_exists.
  now exists keyword.
Qed.

Lemma prefilter_keeps_first_match_witness :
  In "Type" ["Race"; "Type"]
  /\ Scraper.raw_value (Scraper.filtered_lines ["Race"; "Type"] Example.goblin_page)
       "Type"
     = Scraper.raw_value (More.nonblank_lines Example.goblin_page) "Type".
Proof.
  assert (H : In "Type" ["Race"; "Type"]) by (simpl; tauto).
  split; [exact H|].
  exact (prefilter_keeps_first_match _ Example.goblin_page _ H).
Defined.

(** X3. When one configured keyword is a prefix of another, a line that
    starts with the longer one also starts with the shorter one: if the
    first line starting with the longer keyword has no line starting with
    the shorter keyword before it, both keywords get that same raw line. *)
Theorem prefix_keyword_shares_line
    (keywords : list string) (short long : string)
    (before : list string) (line : string) (after : list string) :
  In short keywords -> In long keywords ->
  Py.startswith long short = true ->
  Py.startswith line long = true ->
  (forall l, In l before -> Py.startswith l short = false) ->
  let raw := Scraper.scan_keywords (before ++ line :: after) keywords in
  dict_get short raw = Some line /\ dict_get long raw = Some line.
Proof.
  intros Hs Hl Hpre Hline Hbefore raw.
  destruct (ExtractorFacts.scan_from (before ++ line :: after) keywords [])
    as (_ & _ & Hget).
  fold (Scraper.scan_keywords (before ++ line :: after) keywords) in Hget.
  fold raw in Hget.
  assert (Hfirst : forall k,
             Py.startswith line k = true ->
             (forall l, In l before -> Py.startswith l k = false) ->
             Scraper.raw_value (before ++ line :: after) k = line).
  { intros k Hk Hb. unfold Scraper.raw_value. clear - Hk Hb.
    induction before as [|l before IH]; simpl.
    - now rewrite Hk.
    - rewrite (Hb l (or_introl eq_refl)). apply IH.
      intros l' Hl'. apply Hb. now right. }
  split.
  - rewrite (Hget short Hs). f_equal. apply Hfirst; [|exact Hbefore].
    unfold Py.startswith in *. now apply PyFacts.prefix_trans with long.
  - rewrite (Hget long Hl). f_equal. apply Hfirst; [exact Hline|].
    intros l Hin. specialize (Hbefore l Hin).
    destruct (Py.startswith l long) eqn:E; [|reflexivity].
    unfold Py.startswith in *.
    rewrite (PyFacts.prefix_trans _ _ _ Hpre E) in Hbefore. discriminate.
Qed.

Lemma prefix_keyword_shares_line_witness :
  let raw := Scraper.scan_keywords
               (["Type: Undead"] ++ "Race Alt: Elf" :: ["Race: Human"])
               ["Race"; "Race Alt"; "Type"] in
  dict_get "Race" raw = Some "Race Alt: Elf"
  /\ dict_get "Race Alt" raw = Some "Race Alt: Elf".
Proof.
  apply (prefix_keyword_shares_line ["Race"; "Race Alt"; "Type"]
           "Race" "Race Alt" ["Type: Undead"] "Race Alt: Elf" ["Race: Human"]).
  - simpl; tauto.
  - simpl; tauto.
  - reflexivity.
  - reflexivity.
  - intros l [<-|[]]. reflexivity.
Defined.

(** X4. A cleaned value is trimmed and holds no colon, whatever the raw
    line and the keyword; its characters all come from the raw line. *)
Theorem cleaned_value_is_trimmed_without_colon (key value : string) :
  Py.strip (Scraper.clean_value key value) = Scraper.clean_value key value
  /\ ~ In ":"%char (More.chars (Scraper.clean_value key value))
  /\ forall c, In c (More.chars (Scraper.clean_value key value)) ->
               In c (More.chars value).
Proof.
  unfold Scraper.clean_value. cbv zeta.
  split; [apply PyFacts.strip_idempotent|]. split.
  - intros H. apply PyFacts.strip_chars, PyFacts.replace_chars in H.
    exact (PyFacts.replace_char_gone _ _ H).
  - intros c H.
    now apply PyFacts.strip_chars, PyFacts.replace_chars,
      PyFacts.replace_chars, PyFacts.replace_chars in H.
Qed.

(** X5. The keys of an extracted record depend on the configured keywords
    only, never on the page: two pages give the same keys in the same
    order, and when the keywords are pairwise distinct the keys are the
    keyword list itself. *)
Theorem record_keys_follow_keywords (keywords : list string) (text1 text2 : string) :
  dict_keys (Scraper.monster_info_of_text keywords text1)
  = dict_keys (Scraper.monster_info_of_text keywords text2)
  /\ (NoDup keywords ->
      dict_keys (Scraper.monster_info_of_text keywords text1) = keywords).
Proof.
  rewrite !ExtractorMore.monster_info_keys_eq. split; [reflexivity|].
  intros H. now rewrite (ExtractorMore.add_labels_fresh keywords []).
Qed.

Lemma record_keys_follow_keywords_witness :
  NoDup ["Race"; "Alignment"; "Type"]
  /\ dict_keys (Scraper.monster_info_of_text ["Race"; "Alignment"; "Type"]
                  Example.goblin_page)
     = ["Race"; "Alignment"; "Type"].
Proof.
  assert (H : NoDup ["Race"; "Alignment"; "Type"]).
  { repeat constructor; simpl; intuition discriminate. }
  split; [exact H|].
  exact (proj2 (record_keys_follow_keywords _ Example.goblin_page
                  Example.kobold_page) H).
Defined.

Lemma cleaned_value_is_trimmed_without_colon_witness :
  In "U"%char (More.chars (Scraper.clean_value "Type" "Type: Undead (List)"))
  /\ In "U"%char (More.chars "Type: Undead (List)").
Proof.
  assert (H : In "U"%char
                (More.chars (Scraper.clean_value "Type" "Type: Undead (List)")))
    by (vm_compute; tauto).
  split; [exact H|].
  exact (proj2 (proj2 (cleaned_value_is_trimmed_without_colon
                         "Type" "Type: Undead (List)")) _ H).
Defined.

(* ===================================================================== *)
(** * More about the alignment decomposers *)
(* ===================================================================== *)

Module AlignmentMore.

Import Py Scraper More.

Lemma nth_piece_no_space s n :
  ~ In " "%char (chars (nth n (split " "%char s) "")).
Proof.
  destruct (nth_in_or_default n (split " "%char s) "") as [H| ->].
  - now apply (PyFacts.split_no_sep _ _ _ H).
  - simpl. tauto.
Qed.

End AlignmentMore.

(** X6. Neither decomposer ever returns a text with a space in it, and a
    value that is blank after trimming (empty, or whitespace only) gives
    the empty string on both axes. *)
Theorem axes_hold_no_space (alignment : string) :
  ~ In " "%char (More.chars (Scraper.lawfulness_of alignment))
  /\ ~ In " "%char (More.chars (Scraper.goodness_of alignment))
  /\ (Py.strip alignment = "" ->
      Scraper.lawfulness_of alignment = ""
      /\ Scraper.goodness_of alignment = "").
Proof.
  rewrite AlignmentFacts.lawfulness_of_pieces, AlignmentFacts.goodness_of_pieces.
  split; [apply AlignmentMore.nth_piece_no_space|]. split.
  - destruct (Py.split " "%char (Scraper.canonical_alignment alignment))
      as [|t0 [|t1 r]] eqn:E.
    + simpl. tauto.
    + change t0 with (nth 0 [t0] ""). rewrite <- E.
      apply AlignmentMore.nth_piece_no_space.
    + rewrite <- E. apply AlignmentMore.nth_piece_no_space.
  - intros H. unfold Scraper.canonical_alignment. rewrite H. split; reflexivity.
Qed.

Lemma axes_hold_no_space_witness :
  Py.strip "   " = ""
  /\ Scraper.lawfulness_of "   " = "" /\ Scraper.goodness_of "   " = "".
Proof.
  split; [reflexivity|].
  apply (proj2 (proj2 (axes_hold_no_space "   "))). reflexivity.
Defined.

(** X7. For a value of the documented two-word pattern (exactly two
    pieces after trimming, not "true neutral"), the two axes joined by a
    space give the trimmed value back. *)
Theorem two_word_alignment_round_trip (alignment t0 t1 : string) :
  Py.lower (Py.strip alignment) <> "true neutral" ->
  Py.split " "%char (Py.strip alignment) = [t0; t1] ->
  String.append (Scraper.lawfulness_of alignment)
    (String " "%char (Scraper.goodness_of alignment))
  = Py.strip alignment.
Proof.
  intros Hn Hs.
  rewrite AlignmentFacts.lawfulness_of_pieces, AlignmentFacts.goodness_of_pieces.
  rewrite (AlignmentFacts.canonical_other alignment Hn), Hs.
  rewrite <- (PyFacts.join_split " "%char (Py.strip alignment)), Hs.
  reflexivity.
Qed.

Lemma two_word_alignment_round_trip_witness :
  String.append (Scraper.lawfulness_of "  Lawful Evil ")
    (String " "%char (Scraper.goodness_of "  Lawful Evil "))
  = Py.strip "  Lawful Evil ".
Proof.
  apply (two_word_alignment_round_trip "  Lawful Evil " "Lawful" "Evil").
  - discriminate.
  - reflexivity.
Defined.

(** X8. Two spaces in a row after the first word leave the goodness
    empty: the pieces are cut at every single space, so the second piece
    is the empty text between the two spaces. *)
Theorem double_space_gives_empty_goodness (alignment first rest : string) :
  Py.lower (Py.strip alignment) <> "true neutral" ->
  ~ In " "%char (More.chars first) ->
  Py.strip alignment
  = String.append first (String " "%char (String " "%char rest)) ->
  Scraper.lawfulness_of alignment = first
  /\ Scraper.goodness_of alignment = "".
Proof.
  intros Hn Hf Hs.
  rewrite AlignmentFacts.lawfulness_of_pieces, AlignmentFacts.goodness_of_pieces.
  rewrite (AlignmentFacts.canonical_other alignment Hn), Hs.
  rewrite (PyFacts.split_app_sep " "%char first _ Hf).
  change (String " "%char rest) with (String.append "" (String " "%char rest)).
  rewrite (PyFacts.split_app_sep " "%char "" rest) by (simpl; tauto).
  split; reflexivity.
Qed.

Lemma double_space_gives_empty_goodness_witness :
  Scraper.lawfulness_of "Chaotic  Evil" = "Chaotic"
  /\ Scraper.goodness_of "Chaotic  Evil" = "".
Proof.
  apply (double_space_gives_empty_goodness "Chaotic  Evil" "Chaotic" "Evil").
  - discriminate.
  - unfold More.chars. simpl. intuition discriminate.
  - reflexivity.
Defined.

(* ===================================================================== *)
(** * More about the table of monsters *)
(* ===================================================================== *)

Module TableMore.

Import Py Scraper More DictFacts FrameFacts.

Lemma insert_by_perm {T K : Type} (key : T -> K) ltb x l :
  Permutation (x :: l) (insert_by key ltb x l).
Proof.
  induction l as [|y l IH]; simpl; [reflexivity|].
  destruct (ltb (key y) (key x)); [|reflexivity].
  rewrite perm_swap. now constructor.
Qed.

(** [sorted] only reorders. *)
Lemma sorted_by_perm {T K : Type} (key : T -> K) ltb l :
  Permutation l (sorted_by key ltb l).
Proof.
  induction l as [|x l IH]; simpl; [constructor|].
  rewrite <- insert_by_perm. now constructor.
Qed.

Lemma column_values_cells c rows : forall vs,
  column_values c rows = Ok vs ->
  Forall2 (fun r v => dict_get c r = Some v) rows vs.
Proof.
  induction rows as [|r rows IH]; simpl; intros vs.
  - intros [= <-]. constructor.
  - destruct (dict_get c r) as [v|] eqn:E; [|discriminate].
    destruct (column_values c rows) as [vs'|]; [|discriminate].
    intros [= <-]. constructor; [exact E | now apply IH].
Qed.

Lemma derive_rows rows vs :
  Forall2 (fun r v => dict_get "Alignment" r = Some v) rows vs ->
  map (dict_remove "Alignment")
    (map (fun rv => dict_set "Goodness" (snd rv) (fst rv))
       (combine
          (map (fun rv => dict_set "Lawfulness" (snd rv) (fst rv))
             (combine rows (get_lawfulness vs)))
          (get_goodness vs)))
  = map derived_row rows.
Proof.
  induction 1 as [|r v rows vs Hr _ IH]; [reflexivity|].
  simpl. rewrite IH. unfold derived_row at 2. now rewrite Hr.
Qed.

Lemma absent_column_absent_cell records c r :
  has_column (frame_of_records records) c = false ->
  In r records -> dict_get c r = None.
Proof.
  intros Hc Hr. destruct (dict_get c r) as [v|] eqn:E; [|reflexivity].
  assert (Hin : In c (dict_keys r)) by (apply dict_get_In_keys; now exists v).
  assert (H : has_column (frame_of_records records) c = true).
  { apply has_column_In. apply frame_columns_from. right. now exists r. }
  congruence.
Qed.

(** The rows handed to the sort are the derived rows, one per record and
    in the order of the records. *)
Lemma derive_axes_rows_eq records df :
  derive_axes (frame_of_records records) = Ok df ->
  df_rows df = map derived_row records.
Proof.
  unfold derive_axes, bind.
  destruct (has_column (frame_of_records records) "Alignment") eqn:Ha.
  - cbn [frame_of_records df_rows].
    destruct (column_values "Alignment" records) as [vs|] eqn:E; [|discriminate].
    intros [= <-]. unfold drop_column, set_column. cbn [df_rows].
    apply derive_rows. now apply column_values_cells.
  - intros [= <-]. cbn [frame_of_records df_rows].
    rewrite <- (map_id records) at 1. apply map_ext_in.
    intros r Hr. unfold derived_row.
    now rewrite (absent_column_absent_cell records "Alignment" r Ha Hr).
Qed.

End TableMore.

(** X9. A table that is returned holds exactly the derived rows of the
    records it was built from, reordered: for a record with an alignment
    the cells "Lawfulness" and "Goodness" computed from it are set and
    the cell "Alignment" is removed; no row is lost, repeated or
    invented by the sort. *)
Theorem table_rows_are_the_derived_records
    (monster_info : list dict) (df : DataFrame) :
  Scraper.monster_table monster_info = Ok df ->
  Permutation (map More.derived_row monster_info) (df_rows df).
Proof.
  unfold Scraper.monster_table, bind.
  destruct (Scraper.derive_axes (frame_of_records monster_info)) as [df0|] eqn:E;
    [|discriminate].
  apply TableMore.derive_axes_rows_eq in E.
  unfold sort_values.
  destruct (missing_label df0 Scraper.sort_labels); [discriminate|].
  intros [= <-]. cbn [df_rows]. rewrite <- E.
  apply TableMore.sorted_by_perm.
Qed.

Lemma table_rows_are_the_derived_records_witness :
  exists df,
    Scraper.monster_table
      [[("Name", "Kobold"); ("Race", "Reptilian"); ("Alignment", "Lawful Evil")];
       [("Name", "Goblin"); ("Race", "Goblinoid"); ("Alignment", "Chaotic Evil")]]
    = Ok df
    /\ Permutation
         (map More.derived_row
            [[("Name", "Kobold"); ("Race", "Reptilian"); ("Alignment", "Lawful Evil")];
             [("Name", "Goblin"); ("Race", "Goblinoid"); ("Alignment", "Chaotic Evil")]])
         (df_rows df).
Proof.
  eexists. split; [vm_compute; reflexivity|].
  apply table_rows_are_the_derived_records. vm_compute. reflexivity.
Defined.

Module SchemaFacts.

Import Py Scraper More DictFacts FrameFacts.

Lemma dict_merge_keys_eq d2 : forall d1,
  dict_keys (dict_merge d1 d2) = add_labels (dict_keys d1) (dict_keys d2).
Proof.
  unfold dict_merge, add_labels.
  induction d2 as [|[k v] d2 IH]; intros d1; [reflexivity|].
  simpl. rewrite IH, dict_keys_set. reflexivity.
Qed.

Lemma add_labels_absorb l : forall acc,
  (forall k, In k l -> In k acc) -> add_labels acc l = acc.
Proof.
  unfold add_labels.
  induction l as [|k l IH]; intros acc H; [reflexivity|].
  simpl.
  assert (E : existsb (String.eqb k) acc = true)
    by (apply existsb_eqb_In, H; now left).
  rewrite E. apply IH. intros k' Hk'. apply H. now right.
Qed.

Lemma add_labels_NoDup l : forall acc, NoDup acc -> NoDup (add_labels acc l).
Proof.
  unfold add_labels.
  induction l as [|k l IH]; intros acc H; [exact H|].
  simpl. apply IH.
  destruct (existsb (String.eqb k) acc) eqn:E; [exact H|].
  apply NoDup_app; [exact H | repeat constructor; intros [] |].
  intros x Hx [<-|[]]. apply existsb_eqb_In in Hx. congruence.
Qed.

Lemma record_keys_NoDup keywords : NoDup (record_keys keywords).
Proof. apply add_labels_NoDup. repeat constructor. intros []. Qed.

Lemma collected_keys configs wiki : forall monster_urls infos,
  collect_monster_info configs wiki monster_urls = Ok infos ->
  forall r, In r infos -> dict_keys r = record_keys (columns configs).
Proof.
  induction monster_urls as [|[key value] rest IH]; intros infos.
  - intros [= <-] r [].
  - cbn [collect_monster_info]. unfold get_monster_info, bind.
    destruct (content_text wiki value) as [text|]; [|discriminate].
    destruct (collect_monster_info configs wiki rest) as [infos'|];
      [|discriminate].
    intros [= <-] r [<-|Hr]; [|now apply (IH infos' eq_refl)].
    rewrite dict_merge_keys_eq, ExtractorMore.monster_info_keys_eq.
    reflexivity.
Qed.

Lemma uniform_frame_columns ks records :
  NoDup ks -> records <> [] ->
  (forall r, In r records -> dict_keys r = ks) ->
  df_columns (frame_of_records records) = ks.
Proof.
  intros Hnd Hne Hk. destruct records as [|r0 rest]; [congruence|].
  cbn [frame_of_records df_columns fold_left].
  rewrite (Hk r0 (or_introl eq_refl)).
  rewrite (ExtractorMore.add_labels_fresh ks []) by exact Hnd.
  simpl app.
  assert (G : forall l, (forall r, In r l -> dict_keys r = ks) ->
                fold_left (fun acc r => add_labels acc (dict_keys r)) l ks = ks).
  { induction l as [|r l IHl]; intros H; [reflexivity|].
    simpl. rewrite (H r (or_introl eq_refl)).
    rewrite add_labels_absorb by auto.
    apply IHl. intros r' Hr'. apply H. now right. }
  apply G. intros r Hr. apply Hk. now right.
Qed.

Lemma dict_remove_keys c d :
  dict_keys (dict_remove c d)
  = filter (fun k => negb (String.eqb k c)) (dict_keys d).
Proof.
  unfold dict_remove, dict_keys.
  induction d as [|[k v] d IH]; [reflexivity|].
  simpl. destruct (String.eqb k c); simpl; now rewrite IH.
Qed.

Lemma add_label_keys c v d :
  dict_keys (dict_set c v d) = add_labels (dict_keys d) [c].
Proof. now rewrite dict_keys_set. Qed.

(** After the derivation every row has exactly the columns of the
    frame. *)
Lemma derive_axes_uniform ks records df :
  NoDup ks -> records <> [] ->
  (forall r, In r records -> dict_keys r = ks) ->
  derive_axes (frame_of_records records) = Ok df ->
  (forall r, In r (df_rows df) -> dict_keys r = df_columns df)
  /\ ~ In "Alignment" (df_columns df).
Proof.
  intros Hnd Hne Hk Hd.
  assert (Hrows := TableMore.derive_axes_rows_eq records df Hd).
  assert (Hcols := uniform_frame_columns ks records Hnd Hne Hk).
  unfold derive_axes, bind in Hd.
  destruct (has_column (frame_of_records records) "Alignment") eqn:Ha.
  - destruct (column_values "Alignment" (df_rows (frame_of_records records)))
      as [vs|] eqn:E; [|discriminate].
    apply TableMore.column_values_cells in E. cbn [frame_of_records df_rows] in E.
    injection Hd as <-. unfold drop_column, set_column in *.
    cbn [df_columns df_rows] in *. rewrite Hcols. split.
    + intros r Hr. rewrite Hrows in Hr. apply in_map_iff in Hr.
      destruct Hr as (r0 & <- & Hr0).
      assert (Hcell : exists v, dict_get "Alignment" r0 = Some v).
      { clear - E Hr0. induction E as [|r v rows vs Hrv _ IH]; [destruct Hr0|].
        destruct Hr0 as [<-|Hr0]; [now exists v | now apply IH]. }
      destruct Hcell as [v Hv]. unfold derived_row. rewrite Hv.
      rewrite dict_remove_keys, !add_label_keys. now rewrite (Hk r0 Hr0).
    + intros H. apply filter_In in H. destruct H as [_ H].
      now rewrite String.eqb_refl in H.
  - injection Hd as <-. split.
    + intros r Hr. cbn [frame_of_records df_rows] in Hr.
      rewrite Hcols. now apply Hk.
    + intros H. apply has_column_In in H. congruence.
Qed.

End SchemaFacts.

(** X10. In a table returned by [get_monsters_in_quest] every row has
    exactly the columns of the table, in the same order, so no cell is
    missing; the table has the four sort columns "Lawfulness",
    "Goodness", "Race" and "Name", and never a column "Alignment". *)
Theorem returned_table_has_uniform_rows
    (configs : Scraper.Configs) (wiki : Scraper.Wiki) (quest_name : string)
    (df : DataFrame) :
  Scraper.get_monsters_in_quest configs wiki quest_name = Ok df ->
  (forall r, In r (df_rows df) -> dict_keys r = df_columns df)
  /\ (forall c, In c Scraper.sort_labels -> In c (df_columns df))
  /\ ~ In "Alignment" (df_columns df).
Proof.
  intros H. apply PipelineFacts.get_monsters_in_quest_table in H.
  destruct H as (monster_urls & infos & Hc & Ht).
  assert (Hk := SchemaFacts.collected_keys _ _ _ _ Hc).
  unfold Scraper.monster_table, bind in Ht.
  destruct (Scraper.derive_axes (frame_of_records infos)) as [df0|] eqn:Hd;
    [|discriminate].
  assert (Hne : infos <> []).
  { intros ->. vm_compute in Hd. injection Hd as <-. vm_compute in Ht.
    discriminate. }
  destruct (SchemaFacts.derive_axes_uniform _ _ _
              (SchemaFacts.record_keys_NoDup _) Hne Hk Hd) as [Hu Hna].
  unfold sort_values in Ht.
  destruct (missing_label df0 Scraper.sort_labels) eqn:Hm; [discriminate|].
  injection Ht as <-. cbn [df_rows df_columns].
  split; [|split; [|exact Hna]].
  - intros r Hr. apply Hu.
    eapply Permutation_in; [|exact Hr].
    apply Permutation_sym, TableMore.sorted_by_perm.
  - intros c Hin. unfold missing_label in Hm.
    assert (Hf := find_none _ _ Hm c Hin). cbn beta in Hf.
    apply negb_false_iff in Hf. now apply FrameFacts.has_column_In.
Qed.

Lemma returned_table_has_uniform_rows_witness :
  exists df,
    Scraper.get_monsters_in_quest Example.configs Example.wiki "the pit" = Ok df
    /\ (forall r, In r (df_rows df) -> dict_keys r = df_columns df)
    /\ (forall c, In c Scraper.sort_labels -> In c (df_columns df))
    /\ ~ In "Alignment" (df_columns df).
Proof.
  eexists. split; [vm_compute; reflexivity|].
  apply (returned_table_has_uniform_rows Example.configs Example.wiki "the pit").
  vm_compute. reflexivity.
Defined.

Module RecordFacts.

Import Py Scraper More DictFacts.

(** [{**d1, **d2}]: the value of [d2] where it has the key, else the
    value of [d1]. *)
Lemma dict_merge_get k d2 : forall d1,
  NoDup (dict_keys d2) ->
  dict_get k (dict_merge d1 d2)
  = match dict_get k d2 with Some v => Some v | None => dict_get k d1 end.
Proof.
  unfold dict_merge.
  induction d2 as [|[k2 v2] d2 IH]; intros d1 Hnd; [reflexivity|].
  simpl in Hnd. inversion Hnd as [|? ? Hnotin Hnd']; subst.
  simpl. rewrite (IH _ Hnd').
  destruct (String.eqb_spec k2 k) as [->|Hne].
  - destruct (dict_get k d2) as [v|] eqn:E.
    + exfalso. apply Hnotin. apply dict_get_In_keys. now exists v.
    + apply dict_get_set_same.
  - destruct (dict_get k d2); [reflexivity|].
    now apply dict_get_set_other.
Qed.

Lemma monster_info_NoDup keywords text :
  NoDup (dict_keys (monster_info_of_text keywords text)).
Proof.
  rewrite ExtractorMore.monster_info_keys_eq.
  apply SchemaFacts.add_labels_NoDup. constructor.
Qed.

End RecordFacts.

(** X11. The record of a monster carries, for every configured keyword,
    the value extracted from its page; its "Name" is the monster's title
    from the quest page unless "Name" is itself a configured keyword, in
    which case the value extracted from the page replaces the title. *)
Theorem monster_name_unless_keyword
    (configs : Scraper.Configs) (wiki : Scraper.Wiki)
    (key value : string) (rest : dict) (text : string)
    (r : dict) (infos : list dict) :
  Scraper.content_text wiki value = Ok text ->
  Scraper.collect_monster_info configs wiki ((key, value) :: rest)
  = Ok (r :: infos) ->
  (forall k, In k (Scraper.columns configs) ->
     dict_get k r
     = dict_get k (Scraper.monster_info_of_text (Scraper.columns configs) text))
  /\ (~ In "Name" (Scraper.columns configs) -> dict_get "Name" r = Some key).
Proof.
  intros Ht. cbn [Scraper.collect_monster_info].
  unfold Scraper.get_monster_info, bind. rewrite Ht.
  destruct (Scraper.collect_monster_info configs wiki rest) as [infos'|];
    [|discriminate].
  intros [= <- <-].
  split.
  - intros k Hk.
    rewrite RecordFacts.dict_merge_get by apply RecordFacts.monster_info_NoDup.
    assert (Hin : In k (dict_keys
                          (Scraper.monster_info_of_text (Scraper.columns configs) text)))
      by now apply FrameFacts.monster_info_keys.
    apply DictFacts.dict_get_In_keys in Hin. destruct Hin as [v ->]. reflexivity.
  - intros Hn.
    rewrite RecordFacts.dict_merge_get by apply RecordFacts.monster_info_NoDup.
    destruct (dict_get "Name"
                (Scraper.monster_info_of_text (Scraper.columns configs) text))
      as [v|] eqn:E; [|reflexivity].
    exfalso. apply Hn. apply (FrameFacts.monster_info_keys _ text).
    apply DictFacts.dict_get_In_keys. now exists v.
Qed.

Lemma monster_name_unless_keyword_witness :
  exists r infos,
    Scraper.collect_monster_info Example.configs Example.wiki
      [("Goblin", "/page/Goblin"); ("Kobold", "/page/Kobold")] = Ok (r :: infos)
    /\ dict_get "Name" r = Some "Goblin"
    /\ dict_get "Race" r = Some "Goblinoid".
Proof.
  assert (Ht : Scraper.content_text Example.wiki "/page/Goblin"
               = Ok Example.goblin_page) by reflexivity.
  eexists _, _. split; [vm_compute; reflexivity|].
  match goal with
  | |- dict_get _ ?r = _ /\ _ =>
      destruct (monster_name_unless_keyword Example.configs Example.wiki
                  "Goblin" "/page/Goblin" [("Kobold", "/page/Kobold")]
                  Example.goblin_page r
                  [[("Name", "Kobold"); ("Race", "Reptilian");
                    ("Alignment", "Lawful Evil"); ("Type", "Humanoid")]] Ht)
        as [Hk Hn]
  end.
  - vm_compute. reflexivity.
  - split.
    + apply Hn. simpl. intuition discriminate.
    + rewrite Hk by (simpl; tauto). vm_compute. reflexivity.
Defined.

(** X12. If the page of one monster cannot be read, no record list is
    produced at all: the exception of the first unreadable page is the
    outcome, whatever was read before it and whatever follows it. *)
Theorem unreadable_page_fails_the_collection
    (configs : Scraper.Configs) (wiki : Scraper.Wiki)
    (before : dict) (key url : string) (after : dict) (e : exn) :
  Forall (fun kv => exists text, Scraper.content_text wiki (snd kv) = Ok text)
         before ->
  Scraper.content_text wiki url = Raise e ->
  Scraper.collect_monster_info configs wiki (before ++ (key, url) :: after)
  = Raise e.
Proof.
  intros Hb He. induction Hb as [|[k v] before [text Ht] _ IH].
  - simpl. unfold Scraper.get_monster_info, bind. now rewrite He.
  - simpl in *. unfold Scraper.get_monster_info, bind in *.
    now rewrite Ht, IH.
Qed.

Lemma unreadable_page_fails_the_collection_witness :
  Scraper.collect_monster_info Example.configs Example.wiki
    ([("Goblin", "/page/Goblin")] ++ ("Ogre", "/page/Ogre")
       :: [("Kobold", "/page/Kobold")])
  = Raise RequestException.
Proof.
  apply unreadable_page_fails_the_collection.
  - constructor; [|constructor]. eexists. reflexivity.
  - reflexivity.
Defined.

(* ===================================================================== *)
(** * More about the console loop *)
(* ===================================================================== *)

(** X13. The loop never reads past a quit token: whatever the outcome of
    loading the configuration and of the queries before it, what is typed
    after the first quit token changes nothing. *)
Theorem lines_after_quit_are_never_read
    (load_configs : result Scraper.Configs) (wiki : Scraper.Wiki)
    (before : list string) (line : string) (after1 after2 : list string) :
  Scraper.is_quit (Scraper.normalized line) = true ->
  Scraper.main_loop load_configs wiki (before ++ line :: after1)
  = Scraper.main_loop load_configs wiki (before ++ line :: after2).
Proof.
  intros Hq. induction before as [|l before IH].
  - simpl. now rewrite Hq.
  - change ((l :: before) ++ line :: after1) with (l :: (before ++ line :: after1)).
    change ((l :: before) ++ line :: after2) with (l :: (before ++ line :: after2)).
    cbn [Scraper.main_loop]. rewrite IH. reflexivity.
Qed.

Lemma lines_after_quit_are_never_read_witness :
  Scraper.main_loop (Ok Example.configs) Example.wiki
    (["the pit"] ++ " Quit " :: ["shroud"])
  = Scraper.main_loop (Ok Example.configs) Example.wiki
      (["the pit"] ++ " Quit " :: []).
Proof.
  apply lines_after_quit_are_never_read. reflexivity.
Defined.

(* ===================================================================== *)
(** * [utils.add_to_sys_path] *)
(* ===================================================================== *)

Module UtilsFacts.



End UtilsFacts.



(* ===================================================================== *)
(** * The link loop of the two listing readers *)
(* ===================================================================== *)

Module HarvestFacts.

Import Harvest DictFacts.

Section Links.

Variable urljoin : string -> string -> string.
Variable base : string.

Lemma links_ok anchors : forall urls,
  Forall well_formed anchors ->
  exists urls', links urljoin base anchors urls = inr urls'.
Proof.
  induction anchors as [|a rest IH]; intros urls H; [now exists urls|].
  inversion H as [|? ? [Ht Hh] Hrest]; subst.
  destruct a as [attrs|]; [|now simpl in Ht].
  simpl in *.
  destruct (dict_get "title" attrs); [|congruence].
  destruct (dict_get "href" attrs); [|congruence].
  now apply IH.
Qed.

(** A title that no cell carries keeps the entry it had. *)
Lemma links_absent anchors : forall urls urls' t,
  links urljoin base anchors urls = inr urls' ->
  ~ In (Some t) (map title_of anchors) ->
  dict_get t urls' = dict_get t urls.
Proof.
  induction anchors as [|a rest IH]; intros urls urls' t.
  - now intros [= <-].
  - destruct a as [attrs|]; [|discriminate]. simpl.
    destruct (dict_get "title" attrs) as [title|] eqn:Et; [|discriminate].
    destruct (dict_get "href" attrs) as [href|]; [|discriminate].
    intros H Hn. rewrite (IH _ _ _ H) by tauto.
    apply dict_get_set_other. intros ->. tauto.
Qed.

Lemma links_keys anchors : forall urls urls',
  links urljoin base anchors urls = inr urls' ->
  NoDup (dict_keys urls) ->
  NoDup (dict_keys urls')
  /\ forall t, In t (dict_keys urls')
               <-> In t (dict_keys urls) \/ In (Some t) (map title_of anchors).
Proof.
  induction anchors as [|a rest IH]; intros urls urls'.
  - intros [= <-] H. split; [exact H|]. simpl. tauto.
  - destruct a as [attrs|]; [|discriminate]. simpl.
    destruct (dict_get "title" attrs) as [title|] eqn:Et; [|discriminate].
    destruct (dict_get "href" attrs) as [href|]; [|discriminate].
    intros H Hnd.
    destruct (IH _ _ H (dict_keys_set_NoDup _ _ _ Hnd)) as [Hnd' Hin].
    split; [exact Hnd'|].
    intros t. rewrite Hin, dict_keys_set_In. intuition congruence.
Qed.

(** The entry of a title comes from the last cell that carries it. *)
Lemma links_last pre : forall urls urls' a post t h,
  links urljoin base (pre ++ a :: post) urls = inr urls' ->
  title_of a = Some t -> href_of a = Some h ->
  ~ In (Some t) (map title_of post) ->
  dict_get t urls' = Some (urljoin base h).
Proof.
  induction pre as [|c pre IH]; intros urls urls' a post t h.
  - destruct a as [attrs|]; [|discriminate]. simpl.
    intros H Ht Hh Hn. rewrite Ht, Hh in H.
    rewrite (links_absent _ _ _ _ H Hn). apply dict_get_set_same.
  - destruct c as [attrs|]; [|discriminate]. simpl.
    destruct (dict_get "title" attrs); [|discriminate].
    destruct (dict_get "href" attrs); [|discriminate].
    apply IH.
Qed.

Lemma links_after_good pre : forall urls rest,
  Forall well_formed pre ->
  exists urls', links urljoin base (pre ++ rest) urls
                = links urljoin base rest urls'.
Proof.
  induction pre as [|c pre IH]; intros urls rest H; [now exists urls|].
  inversion H as [|? ? [Ht Hh] Hpre]; subst.
  destruct c as [attrs|]; [|now simpl in Ht].
  simpl in *.
  destruct (dict_get "title" attrs); [|congruence].
  destruct (dict_get "href" attrs); [|congruence].
  now apply IH.
Qed.

End Links.

End HarvestFacts.

(** X15. When every first-column cell has a link with a title and an
    href, the loop returns a mapping with one entry per distinct title
    and no other key; the URL of a title is [urljoin(base, href)] for the
    href of the last cell that carries this title, so a later duplicate
    overwrites an earlier one. *)
Theorem harvest_last_link_wins
    (urljoin : string -> string -> string) (base : string)
    (anchors : list Harvest.anchor) :
  Forall Harvest.well_formed anchors ->
  exists urls,
    Harvest.links urljoin base anchors [] = inr urls
    /\ NoDup (dict_keys urls)
    /\ (forall t, In t (dict_keys urls)
                  <-> In (Some t) (map Harvest.title_of anchors))
    /\ (forall pre a post t h,
          anchors = pre ++ a :: post ->
          Harvest.title_of a = Some t -> Harvest.href_of a = Some h ->
          ~ In (Some t) (map Harvest.title_of post) ->
          dict_get t urls = Some (urljoin base h)).
Proof.
  intros H.
  destruct (HarvestFacts.links_ok urljoin base anchors [] H) as [urls Hu].
  exists urls. split; [exact Hu|].
  destruct (HarvestFacts.links_keys urljoin base anchors [] urls Hu)
    as [Hnd Hin]; [constructor|].
  split; [exact Hnd|]. split.
  - intros t. rewrite Hin. simpl. tauto.
  - intros pre a post t h -> Ht Hh Hn.
    exact (HarvestFacts.links_last urljoin base pre [] urls a post t h Hu Ht Hh Hn).
Qed.

Lemma harvest_last_link_wins_witness :
  exists urls,
    Harvest.links String.append "https://wiki"
      [Some [("href", "/page/Goblin"); ("title", "Goblin")];
       Some [("href", "/page/Kobold"); ("title", "Kobold")];
       Some [("href", "/page/Goblin_(2)"); ("title", "Goblin")]] []
    = inr urls
    /\ dict_get "Goblin" urls = Some "https://wiki/page/Goblin_(2)".
Proof.
  destruct (harvest_last_link_wins String.append "https://wiki"
              [Some [("href", "/page/Goblin"); ("title", "Goblin")];
               Some [("href", "/page/Kobold"); ("title", "Kobold")];
               Some [("href", "/page/Goblin_(2)"); ("title", "Goblin")]])
    as (urls & Hu & _ & _ & Hlast).
  - repeat constructor; discriminate.
  - exists urls. split; [exact Hu|].
    apply (Hlast [Some [("href", "/page/Goblin"); ("title", "Goblin")];
                  Some [("href", "/page/Kobold"); ("title", "Kobold")]]
                 (Some [("href", "/page/Goblin_(2)"); ("title", "Goblin")]) []
                 "Goblin" "/page/Goblin_(2)");
      try reflexivity.
    simpl. tauto.
Defined.

(** X16. The first cell the loop body cannot get through ends the loop
    with an exception and no mapping, whatever the cells after it: a cell
    without a link raises the [TypeError] of subscripting [None], a link
    without a title raises [KeyError] for "title", and a link with a
    title but no href raises [KeyError] for "href". *)
Theorem harvest_fails_at_first_bad_cell
    (urljoin : string -> string -> string) (base : string)
    (pre post : list Harvest.anchor) :
  Forall Harvest.well_formed pre ->
  Harvest.links urljoin base (pre ++ None :: post) []
  = inl Harvest.NotSubscriptable
  /\ (forall attrs,
        dict_get "title" attrs = None ->
        Harvest.links urljoin base (pre ++ Some attrs :: post) []
        = inl (Harvest.MissingAttribute "title"))
  /\ (forall attrs t,
        dict_get "title" attrs = Some t -> dict_get "href" attrs = None ->
        Harvest.links urljoin base (pre ++ Some attrs :: post) []
        = inl (Harvest.MissingAttribute "href")).
Proof.
  intros H. split; [|split].
  - destruct (HarvestFacts.links_after_good urljoin base pre [] (None :: post) H)
      as [urls ->]. reflexivity.
  - intros attrs Ht.
    destruct (HarvestFacts.links_after_good urljoin base pre []
                (Some attrs :: post) H) as [urls ->].
    simpl. now rewrite Ht.
  - intros attrs t Ht Hh.
    destruct (HarvestFacts.links_after_good urljoin base pre []
                (Some attrs :: post) H) as [urls ->].
    simpl. now rewrite Ht, Hh.
Qed.

Lemma harvest_fails_at_first_bad_cell_witness :
  Harvest.links String.append "https://wiki"
    ([Some [("href", "/page/Goblin"); ("title", "Goblin")]] ++ None
       :: [Some [("href", "/page/Kobold"); ("title", "Kobold")]]) []
  = inl Harvest.NotSubscriptable.
Proof.
  apply (harvest_fails_at_first_bad_cell String.append "https://wiki"
           [Some [("href", "/page/Goblin"); ("title", "Goblin")]]
           [Some [("href", "/page/Kobold"); ("title", "Kobold")]]).
  repeat constructor; discriminate.
Defined.

(* ===================================================================== *)
(** * The matching blocks are common to both sequences *)
(* ===================================================================== *)

Module BlockFacts.

Import Difflib Blocks.

Section Sound.

Context {A : Type} (eqb : A -> A -> bool) (pop : A -> bool).
Hypothesis eqb_eq : forall x y, eqb x y = true -> x = y.

Lemma common_zero (a b : list A) i j : common a b i j 0.
Proof. intros t Ht. lia. Qed.

(** A common run grows by one element at its end. *)
Lemma common_snoc (a b : list A) i j d x :
  d <= i -> d <= j ->
  common a b (i - d) (j - d) d ->
  nth_error a i = Some x -> nth_error b j = Some x ->
  common a b (i - d) (j - d) (S d).
Proof.
  intros Hi Hj Hc Ha Hb t Ht.
  destruct (Nat.eq_dec t d) as [->|Hne].
  - exists x. split; [rewrite <- Ha | rewrite <- Hb]; f_equal; lia.
  - apply Hc. lia.
Qed.

Lemma scan_row_sound bsuf : forall (a b : list A) i x j prev diag best,
  nth_error a i = Some x ->
  (forall n, nth_error bsuf n = nth_error b (j + n)) ->
  diag <= i -> diag <= j -> common a b (i - diag) (j - diag) diag ->
  row_sound a b i j prev ->
  block_sound a b best ->
  row_sound a b (S i) j (fst (scan_row eqb pop i x bsuf j prev diag best))
  /\ block_sound a b (snd (scan_row eqb pop i x bsuf j prev diag best)).
Proof.
  induction bsuf as [|y bsuf IH];
    intros a b i x j prev diag best Hx Hb Hdi Hdj Hdiag Hprev Hbest.
  - simpl. split; [|exact Hbest]. intros n v Hn. now destruct n.
  - cbn [scan_row].
    set (k := if eqb x y && negb (pop x) then S diag else 0).
    set (best' := let '(_, _, bestsize) := best in
                  if bestsize <? k then (i + 1 - k, j + 1 - k, k) else best).
    assert (Hy : nth_error b j = Some y).
    { specialize (Hb 0). simpl in Hb. now rewrite Nat.add_0_r in Hb. }
    assert (Hk : k <= S i /\ k <= j + 1 /\ common a b (S i - k) (j + 1 - k) k).
    { subst k. destruct (eqb x y && negb (pop x)) eqn:E.
      - apply andb_true_iff in E. destruct E as [E _].
        apply eqb_eq in E. subst y.
        split; [lia|]. split; [lia|].
        replace (S i - S diag) with (i - diag) by lia.
        replace (j + 1 - S diag) with (j - diag) by lia.
        apply (common_snoc a b i j diag x); assumption.
      - split; [lia|]. split; [lia|]. apply common_zero. }
    destruct Hk as (Hk1 & Hk2 & Hk3).
    assert (Hbest' : block_sound a b best').
    { subst best'. destruct best as [[bi bj] bk].
      destruct (bk <? k); [|exact Hbest].
      simpl. now replace (i + 1 - k) with (S i - k) by lia. }
    assert (Hd' : hd 0 prev <= i /\ hd 0 prev <= S j
                  /\ common a b (i - hd 0 prev) (S j - hd 0 prev) (hd 0 prev)).
    { destruct prev as [|p prev]; cbn [hd].
      - split; [lia|]. split; [lia|]. apply common_zero.
      - destruct (Hprev 0 p eq_refl) as (H1 & H2 & H3).
        split; [exact H1|]. split; [lia|].
        now replace (S j - p) with (j + 0 + 1 - p) by lia. }
    destruct Hd' as (Hd1 & Hd2 & Hd3).
    assert (Hprev' : row_sound a b i (S j) (tl prev)).
    { intros n v Hn. destruct prev as [|p prev]; [now destruct n|].
      simpl in Hn. destruct (Hprev (S n) v Hn) as (H1 & H2 & H3).
      split; [exact H1|]. split; [lia|].
      now replace (S j + n + 1 - v) with (j + S n + 1 - v) by lia. }
    assert (Hb' : forall n, nth_error bsuf n = nth_error b (S j + n)).
    { intros n. specialize (Hb (S n)). simpl in Hb. rewrite Hb. f_equal. lia. }
    specialize (IH a b i x (S j) (tl prev) (hd 0 prev) best'
                  Hx Hb' Hd1 Hd2 Hd3 Hprev' Hbest').
    destruct (scan_row eqb pop i x bsuf (S j) (tl prev) (hd 0 prev) best')
      as [row best''].
    simpl in *. destruct IH as [IHrow IHbest]. split; [|exact IHbest].
    intros n v Hn. destruct n as [|n].
    + simpl in Hn. injection Hn as <-.
      split; [exact Hk1|]. split; [lia|].
      now replace (j + 0 + 1 - k) with (j + 1 - k) by lia.
    + simpl in Hn. destruct (IHrow n v Hn) as (H1 & H2 & H3).
      split; [exact H1|]. split; [lia|].
      now replace (j + S n + 1 - v) with (S (j + n + 1) - v) by lia.
Qed.

Lemma longest_loop_sound asuf : forall (a b : list A) i j2len best,
  (forall n, nth_error asuf n = nth_error a (i + n)) ->
  row_sound a b i 0 j2len ->
  block_sound a b best ->
  block_sound a b (longest_loop eqb pop asuf b i j2len best).
Proof.
  induction asuf as [|x asuf IH]; intros a b i j2len best Ha Hrow Hbest;
    [exact Hbest|].
  cbn [longest_loop].
  assert (Hx : nth_error a i = Some x).
  { specialize (Ha 0). simpl in Ha. now rewrite Nat.add_0_r in Ha. }
  assert (H := scan_row_sound b a b i x 0 j2len 0 best Hx
                 (fun n => eq_refl) (Nat.le_0_l _) (Nat.le_0_l _)
                 (common_zero _ _ _ _) Hrow Hbest).
  destruct (scan_row eqb pop i x b 0 j2len 0 best) as [row best'].
  simpl in H. destruct H as [Hrow' Hbest'].
  apply IH; [|exact Hrow'|exact Hbest'].
  intros n. specialize (Ha (S n)). simpl in Ha. rewrite Ha. f_equal. lia.
Qed.

Lemma same_at_true (a b : list A) i j :
  same_at eqb a b i j = true ->
  exists x, nth_error a i = Some x /\ nth_error b j = Some x.
Proof.
  unfold same_at.
  destruct (nth_error a i) as [x|]; [|discriminate].
  destruct (nth_error b j) as [y|]; [|discriminate].
  intros H. apply eqb_eq in H. subst. now exists y.
Qed.

Lemma extend_left_sound (a b : list A) : forall i j k,
  common a b i j k ->
  block_sound a b (extend_left eqb a b i j k).
Proof.
  induction i as [|i IH]; intros j k H; [exact H|].
  destruct j as [|j]; [exact H|].
  cbn [extend_left]. destruct (same_at eqb a b i j) eqn:E; [|exact H].
  apply IH. apply same_at_true in E. destruct E as (x & Ha & Hb).
  intros t Ht. destruct t as [|t].
  - exists x. now rewrite !Nat.add_0_r.
  - destruct (H t) as (z & Hz1 & Hz2); [lia|].
    exists z. split; [rewrite <- Hz1 | rewrite <- Hz2]; f_equal; lia.
Qed.

Lemma common_prefix_sound u : forall v t,
  t < common_prefix eqb u v ->
  exists x, nth_error u t = Some x /\ nth_error v t = Some x.
Proof.
  induction u as [|x u IH]; intros [|y v] t; simpl; try lia.
  destruct (eqb x y) eqn:E; [|lia].
  apply eqb_eq in E. subst y. intros Ht. destruct t as [|t].
  - now exists x.
  - simpl. apply IH. lia.
Qed.

Lemma extend_right_sound (a b : list A) i j k :
  common a b i j k -> common a b i j (extend_right eqb a b i j k).
Proof.
  intros H t Ht. unfold extend_right in Ht.
  destruct (Nat.lt_ge_cases t k) as [Hlt|Hge]; [now apply H|].
  destruct (common_prefix_sound (skipn (i + k) a) (skipn (j + k) b) (t - k))
    as (x & Hx1 & Hx2); [lia|].
  rewrite nth_error_skipn in Hx1, Hx2. exists x.
  split; [rewrite <- Hx1 | rewrite <- Hx2]; f_equal; lia.
Qed.

(** The block that [find_longest_match] returns is common to both
    slices. *)
Lemma find_longest_match_sound (a b : list A) :
  block_sound a b (find_longest_match eqb pop a b).
Proof.
  unfold find_longest_match.
  assert (H0 : row_sound a b 0 0 []) by (intros n v Hn; now destruct n).
  assert (H := longest_loop_sound a a b 0 [] (0, 0, 0)
                 (fun n => eq_refl) H0 (common_zero a b 0 0)).
  destruct (longest_loop eqb pop a b 0 [] (0, 0, 0)) as [[i j] k].
  apply (extend_left_sound a b) in H.
  destruct (extend_left eqb a b i j k) as [[i' j'] k'].
  simpl in *. now apply extend_right_sound.
Qed.

(** If the blocks cover both sequences entirely, the sequences are the
    same. *)
Lemma matched_all_equal fuel : forall (a b : list A),
  matched eqb pop fuel a b = List.length a ->
  List.length a = List.length b ->
  a = b.
Proof.
  induction fuel as [|fuel IH]; intros a b Hm Hlen.
  - simpl in Hm. destruct a; [|discriminate]. destruct b; [reflexivity|discriminate].
  - cbn [matched] in Hm.
    assert (Hok := DifflibFacts.find_longest_match_ok eqb pop a b).
    assert (Hs := find_longest_match_sound a b).
    destruct (find_longest_match eqb pop a b) as [[i j] k].
    simpl in Hok, Hs.
    destruct (k =? 0) eqn:Ek.
    { destruct a; [|discriminate]. destruct b; [reflexivity|discriminate]. }
    apply Nat.eqb_neq in Ek.
    destruct (DifflibFacts.matched_le eqb pop fuel (firstn i a) (firstn j b))
      as [L1 L2].
    destruct (DifflibFacts.matched_le eqb pop fuel
                (skipn (i + k) a) (skipn (j + k) b)) as [R1 R2].
    rewrite length_firstn in L1, L2. rewrite length_skipn in R1, R2.
    assert (Hij : i = j /\
              (if (0 <? i) && (0 <? j)
               then matched eqb pop fuel (firstn i a) (firstn j b) else 0) = i /\
              (if (i + k <? List.length a) && (j + k <? List.length b)
               then matched eqb pop fuel (skipn (i + k) a) (skipn (j + k) b)
               else 0) = List.length a - (i + k)).
    { destruct ((0 <? i) && (0 <? j));
        destruct ((i + k <? List.length a) && (j + k <? List.length b)); lia. }
    destruct Hij as (<- & HL & HR).
    assert (EL : firstn i a = firstn i b).
    { destruct ((0 <? i) && (0 <? i)) eqn:E.
      - apply IH; rewrite ?length_firstn; [rewrite HL|]; lia.
      - assert (i = 0) by (destruct i; [reflexivity | discriminate]).
        subst. reflexivity. }
    assert (ER : skipn (i + k) a = skipn (i + k) b).
    { destruct ((i + k <? List.length a) && (i + k <? List.length b)) eqn:E.
      - apply IH; rewrite ?length_skipn; [rewrite HR|]; lia.
      - assert (Ha : List.length (skipn (i + k) a) = 0)
          by (rewrite length_skipn; lia).
        assert (Hb : List.length (skipn (i + k) b) = 0)
          by (rewrite length_skipn; lia).
        destruct (skipn (i + k) a); [|discriminate].
        destruct (skipn (i + k) b); [reflexivity|discriminate]. }
    apply nth_error_ext. intros n.
    destruct (Nat.lt_ge_cases n i) as [H1|H1].
    + assert (E1 := nth_error_firstn i a n). assert (E2 := nth_error_firstn i b n).
      apply Nat.ltb_lt in H1. rewrite H1 in E1, E2. congruence.
    + destruct (Nat.lt_ge_cases n (i + k)) as [H2|H2].
      * destruct (Hs (n - i)) as (x & Hx1 & Hx2); [lia|].
        replace (i + (n - i)) with n in Hx1, Hx2 by lia. congruence.
      * assert (E1 := nth_error_skipn (i + k) a (n - (i + k))).
        assert (E2 := nth_error_skipn (i + k) b (n - (i + k))).
        replace (i + k + (n - (i + k))) with n in E1, E2 by lia.
        congruence.
Qed.

End Sound.

End BlockFacts.

(* ===================================================================== *)
(** * A sequence matched against itself *)
(* ===================================================================== *)

Module SelfMatch.

Import Difflib Blocks.

Section Diagonal.

Context {A : Type} (eqb : A -> A -> bool) (pop : A -> bool).
Hypothesis eqb_eq : forall x y, eqb x y = true -> x = y.
Hypothesis eqb_refl : forall x, eqb x x = true.

Lemma diag_vals_step l : forall d m x,
  nth_error l m = Some x ->
  nth m (diag_vals pop l d) 0
  = if pop x then 0
    else S (match m with
            | O => d
            | S m' => nth m' (diag_vals pop l d) 0
            end).
Proof.
  induction l as [|y l IH]; intros d m x Hx; [now destruct m|].
  destruct m as [|m].
  - simpl in Hx. injection Hx as ->. reflexivity.
  - simpl in Hx. cbn [diag_vals nth].
    rewrite (IH _ m x Hx). destruct m; reflexivity.
Qed.

Variable a : list A.

Let vals : list nat := diag_vals pop a 0.
Let dget (m : nat) : nat := nth m vals 0.

Lemma dget_step m x :
  nth_error a m = Some x ->
  dget m = if pop x then 0
           else S (match m with O => 0 | S m' => dget m' end).
Proof. intros H. unfold dget, vals. now rewrite (diag_vals_step a 0 m x H). Qed.

Lemma nth_tl (l : list nat) c : nth c (tl l) 0 = nth (S c) l 0.
Proof. destruct l; [now destruct c | reflexivity]. Qed.

Lemma scan_row_diag bsuf : forall i x j prev diag best,
  nth_error a i = Some x ->
  (forall n, nth_error bsuf n = nth_error a (j + n)) ->
  (forall c, nth c prev 0 <= diag_bound vals i (j + c)) ->
  (forall i', i = S i' -> j <= i' -> nth (i' - j) prev 0 = dget i') ->
  diag <= match j with O => 0 | S j' => diag_bound vals i j' end ->
  (forall i', i = S i' -> j = i -> diag = dget i') ->
  diag_best vals i best ->
  (i < j -> diag_best vals (S i) best) ->
  (forall c, nth c (fst (scan_row eqb pop i x bsuf j prev diag best)) 0
             <= dget (Nat.min i (j + c)))
  /\ (j <= i ->
      nth (i - j) (fst (scan_row eqb pop i x bsuf j prev diag best)) 0 = dget i)
  /\ diag_best vals (S i) (snd (scan_row eqb pop i x bsuf j prev diag best)).
Proof.
  induction bsuf as [|y bsuf IH];
    intros i x j prev diag best Hx Hsuf Hple Hpeq Hdle Hdeq Hbest Hbest1.
  - assert (Hj : i < j).
    { specialize (Hsuf 0). simpl in Hsuf. symmetry in Hsuf.
      apply nth_error_None in Hsuf.
      assert (Hi : i < List.length a)
        by (apply nth_error_Some; congruence).
      lia. }
    simpl. split; [intros c; destruct c; lia|].
    split; [lia | now apply Hbest1].
  - cbn [scan_row].
    set (k := if eqb x y && negb (pop x) then S diag else 0).
    set (best' := let '(_, _, bestsize) := best in
                  if bestsize <? k then (i + 1 - k, j + 1 - k, k) else best).
    assert (Hy : nth_error a j = Some y).
    { specialize (Hsuf 0). simpl in Hsuf. now rewrite Nat.add_0_r in Hsuf. }
    (* the new entry is bounded by the diagonal run at the nearer index *)
    assert (K1 : k <= dget (Nat.min i j)).
    { subst k. destruct (eqb x y && negb (pop x)) eqn:E; [|lia].
      apply andb_true_iff in E. destruct E as [E Ep].
      apply eqb_eq in E. subst y. apply negb_true_iff in Ep.
      assert (Hm : nth_error a (Nat.min i j) = Some x)
        by (destruct (Nat.min_spec i j) as [[_ ->]|[_ ->]]; assumption).
      rewrite (dget_step _ _ Hm), Ep.
      apply le_n_S.
      destruct i as [|i'], j as [|j']; simpl in *; try lia.
      exact Hdle. }
    (* on the diagonal it is the diagonal run itself *)
    assert (K2 : j = i -> k = dget i).
    { intros ->. assert (x = y) by congruence. subst y.
      subst k. rewrite eqb_refl, (dget_step _ _ Hx). simpl.
      destruct (pop x); simpl; [reflexivity|]. f_equal.
      destruct i as [|i']; [simpl in Hdle; lia | now apply Hdeq]. }
    assert (Hb' : diag_best vals i best'
                  /\ (i < S j -> diag_best vals (S i) best')).
    { subst best'. destruct best as [[bi bj] bk].
      destruct (Nat.ltb_spec bk k) as [Hlt|Hge].
      - (* an update can only happen on the diagonal *)
        assert (Hji : j = i).
        { destruct (Nat.lt_trichotomy j i) as [H|[H|H]]; [|exact H|].
          - destruct Hbest as (_ & _ & Hall).
            specialize (Hall j H). fold (dget j) in Hall.
            rewrite Nat.min_r in K1 by lia. lia.
          - destruct (Hbest1 H) as (_ & _ & Hall).
            specialize (Hall i (Nat.lt_succ_diag_r i)). fold (dget i) in Hall.
            rewrite Nat.min_l in K1 by lia. lia. }
        subst j. specialize (K2 eq_refl).
        destruct Hbest as (_ & _ & Hall).
        split; [|intros _]; simpl.
        + split; [reflexivity|]. split; [lia|].
          intros m Hm. specialize (Hall m Hm). lia.
        + split; [reflexivity|]. split; [lia|].
          intros m Hm. destruct (Nat.eq_dec m i) as [->|Hne].
          * fold (dget i). lia.
          * assert (Hm' : m < i) by lia. specialize (Hall m Hm'). lia.
      - split; [exact Hbest|]. intros Hij.
        destruct (Nat.eq_dec i j) as [->|Hne]; [|apply Hbest1; lia].
        specialize (K2 eq_refl).
        destruct Hbest as (H1 & H2 & Hall). simpl.
        split; [exact H1|]. split; [exact H2|].
        intros m Hm. destruct (Nat.eq_dec m j) as [->|Hne].
        + fold (dget j). lia.
        + apply Hall. lia. }
    destruct Hb' as [Hb1 Hb2].
    assert (Hple' : forall c, nth c (tl prev) 0 <= diag_bound vals i (S j + c)).
    { intros c. rewrite nth_tl. specialize (Hple (S c)).
      now replace (S j + c) with (j + S c) by lia. }
    assert (Hpeq' : forall i', i = S i' -> S j <= i' ->
                      nth (i' - S j) (tl prev) 0 = dget i').
    { intros i' Hi Hle. rewrite nth_tl.
      replace (S (i' - S j)) with (i' - j) by lia. apply Hpeq; [exact Hi | lia]. }
    assert (Hdle' : hd 0 prev <= diag_bound vals i j).
    { specialize (Hple 0). rewrite Nat.add_0_r in Hple.
      now destruct prev. }
    assert (Hdeq' : forall i', i = S i' -> S j = i -> hd 0 prev = dget i').
    { intros i' Hi Hj.
      assert (H := Hpeq i' Hi ltac:(lia)).
      replace (i' - j) with 0 in H by lia. now destruct prev. }
    assert (Hsuf' : forall n, nth_error bsuf n = nth_error a (S j + n)).
    { intros n. specialize (Hsuf (S n)). simpl in Hsuf. rewrite Hsuf.
      f_equal. lia. }
    specialize (IH i x (S j) (tl prev) (hd 0 prev) best'
                  Hx Hsuf' Hple' Hpeq' Hdle' Hdeq' Hb1 Hb2).
    destruct (scan_row eqb pop i x bsuf (S j) (tl prev) (hd 0 prev) best')
      as [row best''].
    cbn [fst snd] in *. destruct IH as (IH1 & IH2 & IH3).
    split; [|split; [|exact IH3]].
    + intros c. destruct c as [|c].
      * simpl nth. now rewrite Nat.add_0_r.
      * simpl nth. specialize (IH1 c).
        now replace (j + S c) with (S j + c) by lia.
    + intros Hji. destruct (Nat.eq_dec j i) as [->|Hne].
      * rewrite Nat.sub_diag. simpl nth. now apply K2.
      * replace (i - j) with (S (i - S j)) by lia. simpl nth.
        apply IH2. lia.
Qed.

Lemma longest_loop_diag asuf : forall i j2len best,
  (forall n, nth_error asuf n = nth_error a (i + n)) ->
  (forall c, nth c j2len 0 <= diag_bound vals i c) ->
  (forall i', i = S i' -> nth i' j2len 0 = dget i') ->
  diag_best vals i best ->
  exists n, diag_best vals n (longest_loop eqb pop asuf a i j2len best).
Proof.
  induction asuf as [|x asuf IH]; intros i j2len best Hsuf Hle Heq Hbest.
  - now exists i.
  - cbn [longest_loop].
    assert (Hx : nth_error a i = Some x).
    { specialize (Hsuf 0). simpl in Hsuf. now rewrite Nat.add_0_r in Hsuf. }
    assert (H := scan_row_diag a i x 0 j2len 0 best Hx (fun n => eq_refl)).
    destruct H as (H1 & H2 & H3).
    + intros c. apply Hle.
    + intros i' Hi _. rewrite Nat.sub_0_r. now apply Heq.
    + lia.
    + intros i' Hi H0. lia.
    + exact Hbest.
    + lia.
    + destruct (scan_row eqb pop i x a 0 j2len 0 best) as [row best'].
      cbn [fst snd] in *. apply IH.
      * intros n. specialize (Hsuf (S n)). simpl in Hsuf. rewrite Hsuf.
        f_equal. lia.
      * intros c. apply H1.
      * intros i' [= <-]. rewrite <- (H2 (Nat.le_0_l _)). f_equal. lia.
      * exact H3.
Qed.

Lemma extend_left_diag (u v : list A) : forall i k,
  exists i' k', extend_left eqb u v i i k = (i', i', k') /\ k <= k'.
Proof.
  induction i as [|i IH]; intros k; [now exists 0, k|].
  cbn [extend_left]. destruct (same_at eqb u v i i).
  - destruct (IH (S k)) as (i' & k' & -> & Hk). exists i', k'. split; [reflexivity|lia].
  - now exists (S i), k.
Qed.

Lemma common_prefix_refl (u : list A) : common_prefix eqb u u = List.length u.
Proof. induction u as [|x u IH]; simpl; [reflexivity|]. now rewrite eqb_refl, IH. Qed.

(** Against itself, a non-empty sequence has a non-empty longest match
    that starts at the same index on both sides. *)
Lemma find_longest_match_self :
  exists i k, find_longest_match eqb pop a a = (i, i, k)
              /\ (a <> [] -> 0 < k).
Proof.
  unfold find_longest_match.
  destruct (longest_loop_diag a 0 [] (0, 0, 0)) as [n Hn].
  - intros m. reflexivity.
  - intros c. destruct c; simpl; lia.
  - intros i' H. discriminate.
  - simpl. repeat split; intros; lia.
  - destruct (longest_loop eqb pop a a 0 [] (0, 0, 0)) as [[bi bj] bk].
    destruct Hn as (<- & Hz & _).
    destruct (Nat.eq_dec bk 0) as [->|Hk].
    + rewrite (Hz eq_refl). cbn [extend_left]. exists 0, (extend_right eqb a a 0 0 0).
      split; [reflexivity|]. intros Hne. unfold extend_right. simpl.
      rewrite common_prefix_refl. destruct a; [congruence | simpl; lia].
    + destruct (extend_left_diag a a bi bk) as (i' & k' & -> & Hk').
      exists i', (extend_right eqb a a i' i' k'). split; [reflexivity|].
      intros _. unfold extend_right. lia.
Qed.

End Diagonal.

Section Self.

Context {A : Type} (eqb : A -> A -> bool) (pop : A -> bool).
Hypothesis eqb_eq : forall x y, eqb x y = true -> x = y.
Hypothesis eqb_refl : forall x, eqb x x = true.

(** The blocks found for a sequence against itself cover all of it. *)
Lemma matched_self fuel : forall a : list A,
  List.length a < fuel -> matched eqb pop fuel a a = List.length a.
Proof.
  induction fuel as [|fuel IH]; intros a Hf; [lia|].
  cbn [matched].
  assert (Hok := DifflibFacts.find_longest_match_ok eqb pop a a).
  destruct (find_longest_match_self eqb pop eqb_eq eqb_refl a)
    as (i & k & E & Hk).
  rewrite E in *. simpl in Hok.
  destruct (Nat.eqb_spec k 0) as [->|Hk0].
  { destruct a; [reflexivity|].
    assert (H : 0 < 0) by (apply Hk; discriminate). lia. }
  assert (HL : (if (0 <? i) && (0 <? i)
                then matched eqb pop fuel (firstn i a) (firstn i a) else 0) = i).
  { destruct i as [|i]; [reflexivity|].
    replace ((0 <? S i) && (0 <? S i)) with true by reflexivity.
    rewrite IH; rewrite length_firstn; lia. }
  assert (HR : (if (i + k <? List.length a) && (i + k <? List.length a)
                then matched eqb pop fuel (skipn (i + k) a) (skipn (i + k) a)
                else 0) = List.length a - (i + k)).
  { destruct (Nat.ltb_spec (i + k) (List.length a)) as [Hlt|Hge]; cbn [andb].
    - rewrite IH; rewrite length_skipn; lia.
    - lia. }
  rewrite HL, HR. lia.
Qed.

End Self.

End SelfMatch.

(* ===================================================================== *)
(** * A score of one *)
(* ===================================================================== *)

Module ScoreFacts.

Lemma ascii_eqb_eq x y : Ascii.eqb x y = true -> x = y.
Proof. apply Ascii.eqb_eq. Qed.

Lemma list_ascii_inj a b :
  list_ascii_of_string a = list_ascii_of_string b -> a = b.
Proof.
  intros H. rewrite <- (string_of_list_ascii_of_string a),
    <- (string_of_list_ascii_of_string b). now rewrite H.
Qed.

Lemma ratio_le_1 a b : (Difflib.ratio a b <= 1)%Q.
Proof.
  unfold Difflib.ratio.
  destruct (DifflibFacts.matches_le Ascii.eqb
              (list_ascii_of_string a) (list_ascii_of_string b)) as [H1 H2].
  apply RatioFacts.calculate_ratio_range. lia.
Qed.

(** The score is 1 exactly when twice the matched count is the total
    length, or when there is nothing to compare. *)
Lemma calculate_ratio_one m n :
  (Difflib.calculate_ratio m n == 1)%Q <-> (n = 0 \/ 2 * m = n).
Proof.
  unfold Difflib.calculate_ratio.
  destruct (Nat.eqb_spec n 0) as [->|Hn].
  - split; [now left | reflexivity].
  - unfold Qeq. cbn [Qnum Qden].
    rewrite RatioFacts.Zpos_of_nat by exact Hn.
    rewrite Z.mul_1_r, Z.mul_1_l. split.
    + intros H. right. now apply Nat2Z.inj.
    + intros [H|H]; [contradiction | now rewrite H].
Qed.

Lemma ratio_one_iff a b : (Difflib.ratio a b == 1)%Q <-> a = b.
Proof.
  unfold Difflib.ratio. rewrite calculate_ratio_one.
  set (la := list_ascii_of_string a). set (lb := list_ascii_of_string b).
  destruct (DifflibFacts.matches_le Ascii.eqb la lb) as [H1 H2].
  split.
  - intros H. apply list_ascii_inj. fold la. fold lb.
    apply (BlockFacts.matched_all_equal Ascii.eqb
             (Difflib.bpopular Ascii.eqb lb) ascii_eqb_eq (S (List.length la))).
    + fold (Difflib.matches Ascii.eqb la lb). lia.
    + lia.
  - intros <-. right. clear H1 H2. subst la lb. unfold Difflib.matches.
    rewrite (SelfMatch.matched_self Ascii.eqb _ ascii_eqb_eq Ascii.eqb_refl);
      lia.
Qed.

End ScoreFacts.

(** X17. The similarity score of two texts is 1 if and only if the two
    texts are the same: a text always scores 1 against itself, also when
    the popularity heuristic for long texts applies, and two different
    texts never reach 1. *)
Theorem score_is_one_exactly_for_equal_texts (a b : string) :
  (Difflib.ratio a b == 1)%Q <-> a = b.
Proof. apply ScoreFacts.ratio_one_iff. Qed.

Lemma score_is_one_exactly_for_equal_texts_witness :
  (Difflib.ratio "the shroud" "the shroud" == 1)%Q.
Proof.
  apply (proj2 (score_is_one_exactly_for_equal_texts "the shroud" "the shroud")).
  reflexivity.
Defined.

(** X18. If some candidate equals the query up to case and surrounding
    whitespace, the matcher returns such a candidate: the last-listed one
    among them, so that no candidate listed after the returned one equals
    the query in that sense. *)
Theorem exact_match_is_returned
    (quest_name : string) (candidate_names : list string) (c : string) :
  In c candidate_names ->
  Py.strip (Py.lower c) = Py.strip (Py.lower quest_name) ->
  exists pre r post,
    candidate_names = pre ++ r :: post
    /\ Scraper.get_closest_matching_quest quest_name
         (map Py.PyStr candidate_names) = Ok r
    /\ Py.strip (Py.lower r) = Py.strip (Py.lower quest_name)
    /\ forall c', In c' post ->
         Py.strip (Py.lower c') <> Py.strip (Py.lower quest_name).
Proof.
  intros Hin Hc.
  destruct (MatcherFacts.closest_match_spec quest_name candidate_names)
    as (pre & r & post & Hl & Hr & _ & Hpre & Hpost).
  { intros ->. destruct Hin. }
  assert (Hsim : forall x,
            Scraper.similarity quest_name (Py.PyStr x)
            = Difflib.ratio (Py.strip (Py.lower quest_name))
                (Py.strip (Py.lower x))) by reflexivity.
  assert (Hone : forall x,
            (Scraper.similarity quest_name (Py.PyStr x) == 1)%Q
            <-> Py.strip (Py.lower x) = Py.strip (Py.lower quest_name)).
  { intros x. rewrite Hsim, ScoreFacts.ratio_one_iff. split; congruence. }
  assert (Hle : forall x, (Scraper.similarity quest_name (Py.PyStr x) <= 1)%Q).
  { intros x. rewrite Hsim. apply ScoreFacts.ratio_le_1. }
  assert (Hc1 := proj2 (Hone c) Hc).
  assert (Hr1 : (Scraper.similarity quest_name (Py.PyStr r) == 1)%Q).
  { rewrite Hl in Hin. apply in_app_or in Hin. destruct Hin as [Hin|[->|Hin]].
    - apply Qle_antisym; [apply Hle|]. rewrite <- Hc1. now apply Hpre.
    - exact Hc1.
    - exfalso. specialize (Hpost c Hin). rewrite Hc1 in Hpost.
      apply (Qlt_irrefl 1). eapply Qlt_le_trans; [exact Hpost | apply Hle]. }
  exists pre, r, post. split; [exact Hl|]. split; [exact Hr|].
  split; [now apply Hone|].
  intros c' Hc' Heq. apply Hone in Heq.
  specialize (Hpost c' Hc'). rewrite Heq, Hr1 in Hpost.
  exact (Qlt_irrefl 1 Hpost).
Qed.

Lemma exact_match_is_returned_witness :
  exists pre r post,
    ["Shroud"; "  SCHISM "; "Chronoscope"] = pre ++ r :: post
    /\ Scraper.get_closest_matching_quest "schism"
         (map Py.PyStr ["Shroud"; "  SCHISM "; "Chronoscope"]) = Ok r
    /\ Py.strip (Py.lower r) = Py.strip (Py.lower "schism")
    /\ forall c', In c' post ->
         Py.strip (Py.lower c') <> Py.strip (Py.lower "schism").
Proof.
  apply (exact_match_is_returned "schism"
           ["Shroud"; "  SCHISM "; "Chronoscope"] "  SCHISM ").
  - simpl. tauto.
  - reflexivity.
Defined.

Module ZeroScore.

Import Difflib.



End ZeroScore.



Module ResolveFacts.

Lemma dict_get_In k v d : dict_get k d = Some v -> In (k, v) d.
Proof.
  induction d as [|[k' v'] d IH]; simpl; [discriminate|].
  destruct (String.eqb_spec k' k) as [->|Hne].
  - intros [= ->]. now left.
  - intros H. right. now apply IH.
Qed.

End ResolveFacts.

(** X20. With a non-empty quest listing, resolving the query to a quest
    page never fails: the closest quest is one of the listed quests, the
    lookup of its URL succeeds, and the outcome of
    [get_monsters_in_quest] is that of reading this quest's monster
    listing, collecting the records and building the table. *)
Theorem quest_resolution_never_fails
    (configs : Scraper.Configs) (wiki : Scraper.Wiki) (quest_name : string)
    (quest_urls : dict) :
  Scraper.get_quest_urls wiki = Ok quest_urls ->
  quest_urls <> [] ->
  exists closest url,
    In (closest, url) quest_urls
    /\ Scraper.get_closest_matching_quest quest_name
         (map Py.PyStr (dict_keys quest_urls)) = Ok closest
    /\ Scraper.get_monsters_in_quest configs wiki quest_name
       = bind (Scraper.get_monster_urls wiki url) (fun monster_urls =>
           bind (Scraper.collect_monster_info configs wiki monster_urls)
                Scraper.monster_table).
Proof.
  intros Hq Hne.
  destruct (MatcherFacts.closest_match_spec quest_name (dict_keys quest_urls))
    as (_ & closest & _ & _ & Hc & Hin & _).
  { destruct quest_urls; [congruence | discriminate]. }
  apply DictFacts.dict_get_In_keys in Hin. destruct Hin as [url Hurl].
  exists closest, url. split; [now apply ResolveFacts.dict_get_In|].
  split; [exact Hc|].
  unfold Scraper.get_monsters_in_quest. rewrite Hq. cbn [bind].
  rewrite Hc. cbn [bind]. unfold dict_item. rewrite Hurl. reflexivity.
Qed.

Lemma quest_resolution_never_fails_witness :
  exists closest url,
    In (closest, url)
       [("The Pit", "/page/The_Pit"); ("The Shroud", "/page/The_Shroud")]
    /\ Scraper.get_closest_matching_quest "shroud"
         (map Py.PyStr
            (dict_keys [("The Pit", "/page/The_Pit");
                        ("The Shroud", "/page/The_Shroud")])) = Ok closest
    /\ Scraper.get_monsters_in_quest Example.configs Example.wiki "shroud"
       = bind (Scraper.get_monster_urls Example.wiki url) (fun monster_urls =>
           bind (Scraper.collect_monster_info Example.configs Example.wiki
                   monster_urls)
                Scraper.monster_table).
Proof.
  apply (quest_resolution_never_fails Example.configs Example.wiki "shroud").
  - reflexivity.
  - discriminate.
Defined.
